(** * tito.builder: a shallow embedding of the release-target builders

    The development follows [src/tito/builder.py].  Python strings are
    [string]s, Python lists are [list]s, the ConfigParser objects and the
    user configuration dictionary are finite maps, and the methods of
    [Builder] that mutate [self] and run external commands are written
    in a small state-and-error monad over the mutable fields of the
    object together with a log of the external calls issued so far.

    Part I holds the definitions, Part II the lemmas and theorems. *)

From Stdlib Require Import Ascii String DecimalString DecimalN NArith Lia.
From stdpp Require Import base option list strings gmap.

Local Open Scope stdpp_scope.

(* ===================================================================== *)
(** * Part I: definitions                                                 *)
(* ===================================================================== *)

(** ** Python string primitives used by the module *)

Module Py.

(** [s.startswith(p)] *)
Definition startswith (s p : string) : bool := String.prefix p s.

(** [s[n:]] for a non-negative [n] *)
Fixpoint drop_str (n : nat) (s : string) : string :=
  match n, s with
  | O, _ => s
  | S _, EmptyString => EmptyString
  | S n', String _ s' => drop_str n' s'
  end.

(** [s[:n]] for a non-negative [n] *)
Fixpoint take_str (n : nat) (s : string) : string :=
  match n, s with
  | O, _ => EmptyString
  | S _, EmptyString => EmptyString
  | S n', String c s' => String c (take_str n' s')
  end.

(** [s.endswith(p)] *)
Definition endswith (s p : string) : bool :=
  (String.length p <=? String.length s)%nat &&
  String.eqb (drop_str (String.length s - String.length p) s) p.

(** [s.split(sep)] for a separator of one character, the only kind the
    module uses: the result is never empty, and two adjacent separators
    delimit an empty field. *)
Fixpoint split (sep : ascii) (s : string) : list string :=
  match s with
  | EmptyString => [EmptyString]
  | String c s' =>
      if Ascii.eqb c sep then EmptyString :: split sep s'
      else match split sep s' with
           | [] => [String c EmptyString]
           | w :: ws => String c w :: ws
           end
  end.

(** [s.lstrip()], [s.rstrip()] and [s.strip()] with no argument: the
    characters removed are space, tab, newline, vertical tab, form feed and
    carriage return. *)
Fixpoint lstrip (s : string) : string :=
  match s with
  | EmptyString => EmptyString
  | String c s' => if Ascii.is_space c then lstrip s' else s
  end.

Fixpoint rstrip (s : string) : string :=
  match s with
  | EmptyString => EmptyString
  | String c s' =>
      match rstrip s' with
      | EmptyString => if Ascii.is_space c then EmptyString
                       else String c EmptyString
      | r => String c r
      end
  end.

Definition strip (s : string) : string := rstrip (lstrip s).

(** [sep.join(l)] *)
Fixpoint join (sep : string) (l : list string) : string :=
  match l with
  | [] => ""
  | [x] => x
  | x :: l' => x +:+ sep +:+ join sep l'
  end.

(** [sub in s] on strings *)
Fixpoint contains (s sub : string) : bool :=
  String.prefix sub s ||
  match s with
  | EmptyString => false
  | String _ s' => contains s' sub
  end.

(** [x in l] on a list of strings *)
Definition mem (x : string) (l : list string) : bool :=
  bool_decide (x ∈ l).

(** [int(ds)] for a string of decimal digits *)
Definition digit_val (c : ascii) : N :=
  match Ascii.is_nat c with Some d => N.of_nat d | None => 0%N end.

Fixpoint int_acc (acc : N) (ds : string) : N :=
  match ds with
  | EmptyString => acc
  | String c ds' => int_acc (10 * acc + digit_val c)%N ds'
  end.

Definition int (ds : string) : N := int_acc 0%N ds.

(** ["%s" % n] for a non-negative integer *)
Definition str_of_N (n : N) : string := NilZero.string_of_uint (N.to_uint n).

(** ["%s" % x] for a value that is a string or [None] *)
Definition str_of_opt (x : option string) : string :=
  match x with Some s => s | None => "None" end.

(** [os.path.basename(p)]: what follows the last slash, that is
    [p[p.rfind('/') + 1:]], the last field of [p.split('/')] *)
Definition basename (p : string) : string := List.last (split "/" p) "".

(** [os.path.join(a, b)] (posixpath, two components) *)
Definition path_join (a b : string) : string :=
  if String.prefix "/" b then b
  else if String.eqb a "" || endswith a "/" then a +:+ b
  else a +:+ "/" +:+ b.

End Py.

(** The newline character and the one-character string holding it. *)
Definition LF : ascii := ascii_of_nat 10.
Definition nl : string := String LF EmptyString.

(** ** Fatal exits

    [error_out] and [run_command] live in [tito.common]: the first prints
    its message and leaves the process, the second raises when the command
    returns a non-zero status.  [ConfigParser.get] raises on a missing
    section or option, [os.chdir] on a missing directory, [find_spec_file]
    (also of [tito.common]) gives up when it finds no spec file, and
    indexing an empty list raises. *)
Inductive error : Type :=
| ErrorOut (msg : string)
| CommandFailed (cmd : string)
| NoSectionError (section : string)
| NoOptionError (section option : string)
| OSError (path : string)
| DescriptorNotFound (in_dir : string)
| IndexError.

Inductive result (A : Type) : Type :=
| Ok (a : A)
| Err (e : error).
Arguments Ok {A} a.
Arguments Err {A} e.

Definition is_ok {A} (r : result A) : bool :=
  match r with Ok _ => true | Err _ => false end.

(** ** Builder._get_display_version

    [commit_count] and [latest_commit] are what [get_commit_count] and
    [get_latest_commit] of [tito.common] return, the first already
    rendered by [%s]. *)
Definition _get_display_version
    (test : bool) (build_version commit_count latest_commit : string) : string :=
  if test then
    "git-" +:+ commit_count +:+ "." +:+ Py.take_str 7 latest_commit
  else
    List.hd "" (Py.split "-" build_version).

(** ** UpstreamBuilder._patch_upstream and patch_upstream *)

(** The longest run of decimal digits at the head of a string, and the rest. *)
Fixpoint span_digits (s : string) : string * string :=
  match s with
  | EmptyString => (EmptyString, EmptyString)
  | String c s' =>
      if bool_decide (is_Some (Ascii.is_nat c)) then
        let '(ds, rest) := span_digits s' in (String c ds, rest)
      else (EmptyString, s)
  end.

(** [re.compile('^' + kw + '(\d+):').match(line)], giving [group(1)]: the
    keyword, then one digit or more, then a colon.  The digit run is taken
    greedily and a colon is no digit, so there is nothing to backtrack. *)
Definition match_directive (kw line : string) : option string :=
  if Py.startswith line kw then
    match span_digits (Py.drop_str (String.length kw) line) with
    | (String d ds, String ":" _) => Some (String d ds)
    | _ => None
    end
  else None.

Definition patch_pattern : string -> option string := match_directive "Patch".
Definition source_pattern : string -> option string := match_directive "Source".

(** The four counters of the scanning loop. *)
Record scan : Type := mkScan {
  patch_number : N;
  patch_insert_index : nat;
  patch_apply_index : nat;
  array_index : nat
}.

Definition scan0 : scan := mkScan 0 0 0 0.

(** One turn of [for line in lines]. *)
Definition scan_line (st : scan) (line : string) : scan :=
  let st1 :=
    match source_pattern line with
    | Some _ => mkScan (patch_number st) (array_index st + 1)
                       (patch_apply_index st) (array_index st)
    | None => st
    end in
  let st2 :=
    match patch_pattern line with
    | Some ds => mkScan (Py.int ds + 1) (array_index st1 + 1)
                        (patch_apply_index st1) (array_index st1)
    | None => st1
    end in
  let st3 :=
    if Py.startswith line "%prep" then
      mkScan (patch_number st2) (patch_insert_index st2)
             (array_index st2 + 2) (array_index st2)
    else if Py.startswith line "%setup" then
      mkScan (patch_number st2) (patch_insert_index st2)
             (array_index st2 + 2) (array_index st2)
    else st2 in
  mkScan (patch_number st3) (patch_insert_index st3)
         (patch_apply_index st3) (array_index st3 + 1).

Definition scan_lines (lines : list string) : scan :=
  fold_left scan_line lines scan0.

(** A line that anchors the new [PatchN:] line, and a line that anchors
    the new [%patchN] line. *)
Definition anchor_line (line : string) : bool :=
  bool_decide (is_Some (source_pattern line))
  || bool_decide (is_Some (patch_pattern line)).

Definition marker_line (line : string) : bool :=
  Py.startswith line "%prep" || Py.startswith line "%setup".

(** Following the words of the specification: the largest index among the
    [PatchN:] lines plus one, and 0 when there is none. *)
Definition patch_number_spec (lines : list string) : N :=
  fold_right
    (fun line acc =>
       match patch_pattern line with
       | Some ds => N.max (Py.int ds + 1) acc
       | None => acc
       end)
    0%N lines.

Definition no_insertion_point : string :=
  "Unable to insert PatchX or %patchX lines in spec file".

(** [_patch_upstream], on the lines read from the spec file. *)
Definition _patch_upstream (lines : list string)
  : result (N * nat * nat * list string) :=
  let st := scan_lines lines in
  if (patch_insert_index st =? 0)%nat || (patch_apply_index st =? 0)%nat then
    Err (ErrorOut no_insertion_point)
  else
    Ok (patch_number st, patch_insert_index st, patch_apply_index st, lines).

(** [l.insert(i, x)] for a non-negative [i]: past the end it appends. *)
Definition py_insert {A} (i : nat) (x : A) (l : list A) : list A :=
  take i l ++ x :: drop i l.

Definition patch_line (patch_number : N) (patch_filename : string) : string :=
  "Patch" +:+ Py.str_of_N patch_number +:+ ": " +:+ patch_filename +:+ nl.

Definition apply_line (patch_number : N) : string :=
  "%patch" +:+ Py.str_of_N patch_number +:+ " -p1" +:+ nl.

(** The two [lines.insert] calls of [patch_upstream], in their order. *)
Definition insert_patch_lines
    (lines : list string) (patch_number : N)
    (patch_insert_index patch_apply_index : nat) (patch_filename : string)
  : list string :=
  let lines1 :=
    py_insert patch_insert_index (patch_line patch_number patch_filename) lines in
  py_insert patch_apply_index (apply_line patch_number) lines1.

(** [patch_upstream] from the call of [_patch_upstream] on: the lines that
    [_write_spec] then writes to the spec file copy. *)
Definition patch_upstream_lines (patch_filename : string) (lines : list string)
  : result (list string) :=
  match _patch_upstream lines with
  | Err e => Err e
  | Ok (patch_number, patch_insert_index, patch_apply_index, lines) =>
      Ok (insert_patch_lines lines patch_number patch_insert_index
            patch_apply_index patch_filename)
  end.

(** Following the words of the specification: the same two lines, the one
    with the larger index inserted first, each index read against the
    original list. *)
Definition applyPatchInsertion_spec
    (lines : list string) (patchNumber : N)
    (insertIdx applyIdx : nat) (patchFilename : string) : list string :=
  if (insertIdx <=? applyIdx)%nat then
    py_insert insertIdx (patch_line patchNumber patchFilename)
      (py_insert applyIdx (apply_line patchNumber) lines)
  else
    py_insert applyIdx (apply_line patchNumber)
      (py_insert insertIdx (patch_line patchNumber patchFilename) lines).

(** ** Builder._find_wrote_in_rpmbuild_output *)

Definition look_for : string := "Wrote: ".

Definition no_wrote_lines : string :=
  "Unable to locate 'Wrote: ' lines in rpmbuild output".

Definition wrote_line (paths : list string) (line : string) : list string :=
  if Py.startswith line look_for then
    paths ++ [Py.drop_str (String.length look_for) line]
  else paths.

Definition _find_wrote_in_rpmbuild_output (output : string)
  : result (list string) :=
  let paths := fold_left wrote_line (Py.split LF output) [] in
  match paths with
  | [] => Err (ErrorOut no_wrote_lines)
  | _ => Ok paths
  end.

(** Following the words of the specification: the lines that begin with
    [Wrote: ], and what follows it on each, in order. *)
Definition is_wrote_line (line : string) : bool := Py.startswith line look_for.

(** The paths following [Wrote: ], read off the lines in order. *)
Definition wrote_paths (output : string) : list string :=
  map (Py.drop_str 7) (List.filter is_wrote_line (Py.split LF output)).

(** ** Builder._sync_files

    The files the method sees: a finite map from full paths to regular
    files (with their content) and directories. *)
Inductive node : Type :=
| File (content : string)
| Dir.

Abbreviation filesystem := (gmap string node).

Definition PROTECTED_BUILD_SYS_FILES : list string :=
  ["branch"; "CVS"; ".cvsignore"; "Makefile"; "sources"; ".git"; ".gitignore"].

(** [os.path.exists(p)] *)
Definition path_exists (fs : filesystem) (p : string) : bool :=
  bool_decide (is_Some (fs !! p)).

(** The name of [p] inside directory [d], when [p] is an entry of [d]. *)
Definition entry_of (d p : string) : option string :=
  let pre := if Py.endswith d "/" then d else d +:+ "/" in
  if Py.startswith p pre then
    let name := Py.drop_str (String.length pre) p in
    if String.eqb name "" || Py.contains name "/" then None else Some name
  else None.

(** [os.listdir(d)], in the order of the map's enumeration. *)
Definition listdir (fs : filesystem) (d : string) : list string :=
  omap (entry_of d) (map fst (map_to_list fs)).

(** [run_command("cp %s %s" % (src, dst))]: copying a regular file over
    [dst], or into it when [dst] is a directory; [None] when the command
    fails because [src] is no regular file.  The source does not quote the
    two names: this is the command on names that hold no blank and nothing
    else the shell reads, with [src] another file than the one written.
    [_sync_files_with] below leaves the outcome of the command open. *)
Definition cp (src dst : string) (fs : filesystem) : option filesystem :=
  match fs !! src with
  | Some (File content) =>
      match fs !! dst with
      | Some Dir => Some (<[Py.path_join dst (Py.basename src) := File content]> fs)
      | _ => Some (<[dst := File content]> fs)
      end
  | _ => None
  end.

(** The loop [for copy_me in files_to_copy], threading [new_files] and the
    file system. *)
Fixpoint sync_copy_loop (dest_dir : string) (files_to_copy : list string)
    (new_files : list string) (fs : filesystem)
  : result (list string) * filesystem :=
  match files_to_copy with
  | [] => (Ok new_files, fs)
  | copy_me :: rest =>
      let base_filename := Py.basename copy_me in
      let dest_path := Py.path_join dest_dir base_filename in
      let new_files :=
        if path_exists fs dest_path then new_files ++ [base_filename]
        else new_files in
      let cmd := "cp " +:+ copy_me +:+ " " +:+ dest_path in
      match cp copy_me dest_path fs with
      | Some fs' => sync_copy_loop dest_dir rest new_files fs'
      | None => (Err (CommandFailed cmd), fs)
      end
  end.

(** The loop [for filename in os.listdir(dest_dir)]. *)
Definition sync_old_files (filenames_to_copy : list string)
    (listing : list string) : list string :=
  fold_left
    (fun old_files filename =>
       if negb (Py.mem filename PROTECTED_BUILD_SYS_FILES)
          && negb (Py.mem filename filenames_to_copy)
       then old_files ++ [filename] else old_files)
    listing [].

(** The test of that loop on one entry. *)
Definition is_obsolete (filenames_to_copy : list string) (filename : string) : bool :=
  negb (Py.mem filename PROTECTED_BUILD_SYS_FILES)
  && negb (Py.mem filename filenames_to_copy).

(** [_sync_files(files_to_copy, dest_dir)]: the triple
    [(new_files, copied_files, old_files)] and the file system left behind. *)
Definition _sync_files (files_to_copy : list string) (dest_dir : string)
    (fs : filesystem)
  : result (list string * list string * list string) * filesystem :=
  match fs !! dest_dir with
  | Some Dir =>
      let filenames_to_copy := map Py.basename files_to_copy in
      let copied_files : list string := [] in
      match sync_copy_loop dest_dir files_to_copy [] fs with
      | (Err e, fs') => (Err e, fs')
      | (Ok new_files, fs') =>
          let old_files := sync_old_files filenames_to_copy (listdir fs' dest_dir) in
          (Ok (new_files, copied_files, old_files), fs')
      end
  | _ => (Err (OSError dest_dir), fs)
  end.

(** Following the words of the specification: a copied file is new when
    its destination did not exist before the copy and updated otherwise. *)
Definition sync_plan_spec (files_to_copy : list string) (dest_dir : string)
    (fs : filesystem) : list string * list string * list string :=
  let names := map Py.basename files_to_copy in
  let is_new name := negb (path_exists fs (Py.path_join dest_dir name)) in
  (filter (fun name => is_new name = true) names,
   filter (fun name => is_new name = false) names,
   filter (fun name => (name ∉ PROTECTED_BUILD_SYS_FILES) ∧ (name ∉ names))
          (listdir fs dest_dir)).

Definition fs_example : filesystem :=
  list_to_map
    [("/git/pkg", Dir); ("/git/pkg/a.spec", File "spec v2");
     ("/git/pkg/b.patch", File "patch");
     ("/cvs/pkg/F-12", Dir); ("/cvs/pkg/F-12/a.spec", File "spec v1");
     ("/cvs/pkg/F-12/c.patch", File "old patch"); ("/cvs/pkg/F-12/.git", Dir);
     ("/cvs/pkg/F-12/.git/config", File "cfg")].

(** ** The builder object

    The attributes fixed by [__init__] and never assigned again by the
    methods modelled here. *)
Inductive class : Type := Builder | NoTgzBuilder.

Record attrs : Type := mkAttrs {
  cls : class;
  git_root : string;
  rel_eng_dir : string;
  project_name : string;
  build_tag : string;
  build_version : string;
  dist : option string;
  test : bool;
  offline : bool;
  auto_install : bool;
  rpmbuild_options : string;
  scratch : bool;
  only_tags : list string;
  dry_run : bool;
  config : gmap string (gmap string string);
  user_config : gmap string string;
  rpmbuild_basedir : string;
  display_version : string;
  commit_count : string;
  git_commit_id : string;
  project_name_and_sha1 : string;
  relative_project_dir : string;
  tgz_filename : string;
  tgz_dir : string;
  rpmbuild_dir : string;
  rpmbuild_sourcedir : string;
  rpmbuild_builddir : string;
  rpmbuild_gitcopy : string;
  cvs_workdir : string;
  cvs_package_workdir : string
}.

(** The object: the fixed attributes and the ones the methods assign. *)
Record builder : Type := mkBuilder {
  fixed :> attrs;
  no_cleanup : bool;
  ran_tgz : bool;
  ran_setup_test_specfile : bool;
  spec_file_name : option string;
  spec_file : option string;
  sources : list string;
  srpm_location : option string;
  artifacts : list string
}.

Definition set_no_cleanup (v : bool) (b : builder) : builder :=
  mkBuilder b v (ran_tgz b) (ran_setup_test_specfile b) (spec_file_name b)
    (spec_file b) (sources b) (srpm_location b) (artifacts b).
Definition set_ran_tgz (v : bool) (b : builder) : builder :=
  mkBuilder b (no_cleanup b) v (ran_setup_test_specfile b) (spec_file_name b)
    (spec_file b) (sources b) (srpm_location b) (artifacts b).
Definition set_ran_setup_test_specfile (v : bool) (b : builder) : builder :=
  mkBuilder b (no_cleanup b) (ran_tgz b) v (spec_file_name b)
    (spec_file b) (sources b) (srpm_location b) (artifacts b).
Definition set_spec_file_name (v : option string) (b : builder) : builder :=
  mkBuilder b (no_cleanup b) (ran_tgz b) (ran_setup_test_specfile b) v
    (spec_file b) (sources b) (srpm_location b) (artifacts b).
Definition set_spec_file (v : option string) (b : builder) : builder :=
  mkBuilder b (no_cleanup b) (ran_tgz b) (ran_setup_test_specfile b)
    (spec_file_name b) v (sources b) (srpm_location b) (artifacts b).
Definition set_sources (v : list string) (b : builder) : builder :=
  mkBuilder b (no_cleanup b) (ran_tgz b) (ran_setup_test_specfile b)
    (spec_file_name b) (spec_file b) v (srpm_location b) (artifacts b).
Definition set_srpm_location (v : option string) (b : builder) : builder :=
  mkBuilder b (no_cleanup b) (ran_tgz b) (ran_setup_test_specfile b)
    (spec_file_name b) (spec_file b) (sources b) v (artifacts b).
Definition set_artifacts (v : list string) (b : builder) : builder :=
  mkBuilder b (no_cleanup b) (ran_tgz b) (ran_setup_test_specfile b)
    (spec_file_name b) (spec_file b) (sources b) (srpm_location b) v.

(** Truth value of an attribute that is [None] or a string. *)
Definition truthy (x : option string) : bool :=
  match x with
  | Some s => negb (String.eqb s "")
  | None => false
  end.

(** ** ConfigParser *)

Definition has_section (c : gmap string (gmap string string))
    (section : string) : bool :=
  bool_decide (is_Some (c !! section)).

Definition has_option (c : gmap string (gmap string string))
    (section option : string) : bool :=
  match c !! section with
  | Some opts => bool_decide (is_Some (opts !! option))
  | None => false
  end.

Definition config_get (c : gmap string (gmap string string))
    (section option : string) : result string :=
  match c !! section with
  | Some opts =>
      match opts !! option with
      | Some v => Ok v
      | None => Err (NoOptionError section option)
      end
  | None => Err (NoSectionError section)
  end.

(** The value of an option split into words, [get(...).strip().split(" ")]. *)
Definition words_of (v : string) : list string := Py.split " " (Py.strip v).

(** [Builder.__is_whitelisted] and [Builder.__is_blacklisted] *)
Definition is_whitelisted (b : attrs) (koji_tag : string) : bool :=
  has_option (config b) koji_tag "whitelist" &&
  match config_get (config b) koji_tag "whitelist" with
  | Ok v => Py.mem (project_name b) (words_of v)
  | Err _ => false
  end.

Definition is_blacklisted (b : attrs) (koji_tag : string) : bool :=
  has_option (config b) koji_tag "blacklist" &&
  match config_get (config b) koji_tag "blacklist" with
  | Ok v => Py.mem (project_name b) (words_of v)
  | Err _ => false
  end.

(** ** External calls

    Every call that leaves the process is recorded, in order, with the
    method that issued it. *)
Inductive method : Type :=
| In_create_build_dirs
| In_setup_sources
| In_tgz
| In_setup_test_specfile
| In_srpm
| In_rpm
| In_submit_build
| In_cleanup.

Inductive event : Type :=
| Shell (caller : method) (cmd : string)
| CreateTgz (prefix commit relative_dir dest_tgz : string)
| FindSpecFile (in_dir : string)
| ListDir (dir : string)
| DryRun (cmd : string).

#[global] Instance method_eq_dec : EqDecision method.
Proof. solve_decision. Defined.

#[global] Instance event_eq_dec : EqDecision event.
Proof. solve_decision. Defined.

(** What the outside answers, given the calls made so far: the output of a
    shell command ([None]: non-zero status), whether [create_tgz] goes
    through, the spec file [find_spec_file] locates ([None]: it gives up
    with [error_out]), a directory listing, and the path of a helper
    script. *)
Record world : Type := mkWorld {
  run_command : list event -> string -> option string;
  create_tgz : list event -> string -> string -> bool;
  find_spec_file : list event -> string -> option string;
  os_listdir : list event -> string -> list string;
  get_script_path : string -> string
}.

(** ** The monad of the methods: the object, the log, and a fatal exit *)

Definition M (A : Type) : Type :=
  builder -> list event -> result A * builder * list event.

Definition ret {A} (a : A) : M A := fun b l => (Ok a, b, l).

Definition bind {A B} (m : M A) (k : A -> M B) : M B :=
  fun b l =>
    match m b l with
    | (Ok a, b', l') => k a b' l'
    | (Err e, b', l') => (Err e, b', l')
    end.

Declare Scope method_scope.
Notation "x <- m ;; k" := (bind m (fun x => k))
  (at level 100, m at next level, k at level 200, right associativity)
  : method_scope.
Notation "m ;; k" := (bind m (fun _ => k))
  (at level 100, k at level 200, right associativity) : method_scope.
Local Open Scope method_scope.

Definition self : M builder := fun b l => (Ok b, b, l).
Definition assign (f : builder -> builder) : M unit :=
  fun b l => (Ok tt, f b, l).
Definition fatal {A} (e : error) : M A := fun b l => (Err e, b, l).
Definition lift {A} (r : result A) : M A :=
  match r with Ok a => ret a | Err e => fatal e end.
Definition when (c : bool) (m : M unit) : M unit := if c then m else ret tt.

Fixpoint for_each {A} (l : list A) (body : A -> M unit) : M unit :=
  match l with
  | [] => ret tt
  | x :: l' => body x ;; for_each l' body
  end.

(** ** The methods of Builder and NoTgzBuilder *)

Definition DEFAULT_KOJI_OPTS : string := "build --nowait".

(** The double quote, which the command lines below contain. *)
Definition dq : string := String (ascii_of_nat 34) EmptyString.

Section Methods.
Context (w : world).

(** [run_command(cmd)] *)
Definition shell (caller : method) (cmd : string) : M string :=
  fun b l =>
    match run_command w l cmd with
    | Some output => (Ok output, b, l ++ [Shell caller cmd])
    | None => (Err (CommandFailed cmd), b, l ++ [Shell caller cmd])
    end.

(** [commands.getoutput(cmd)]: the status is not looked at *)
Definition getoutput (caller : method) (cmd : string) : M unit :=
  fun b l => (Ok tt, b, l ++ [Shell caller cmd]).

Definition call_create_tgz (prefix commit relative_dir dest_tgz : string)
  : M unit :=
  fun b l =>
    let l' := l ++ [CreateTgz prefix commit relative_dir dest_tgz] in
    if create_tgz w l commit dest_tgz then (Ok tt, b, l')
    else (Err (CommandFailed "create_tgz"), b, l').

Definition call_find_spec_file (in_dir : string) : M string :=
  fun b l =>
    match find_spec_file w l in_dir with
    | Some name => (Ok name, b, l ++ [FindSpecFile in_dir])
    | None => (Err (DescriptorNotFound in_dir), b, l ++ [FindSpecFile in_dir])
    end.

Definition call_listdir (dir : string) : M (list string) :=
  fun b l => (Ok (os_listdir w l dir), b, l ++ [ListDir dir]).

Definition print_dry_run_warning (cmd : string) : M unit :=
  fun b l => (Ok tt, b, l ++ [DryRun cmd]).

Definition _create_build_dirs : M unit :=
  b <- self ;;
  getoutput In_create_build_dirs
    ("mkdir -p " +:+ rpmbuild_basedir b +:+ " " +:+ rpmbuild_dir b +:+ " "
       +:+ rpmbuild_sourcedir b +:+ " " +:+ rpmbuild_builddir b).

Definition _setup_sources : M unit :=
  _create_build_dirs ;;
  b <- self ;;
  call_create_tgz (tgz_dir b) (git_commit_id b) (relative_project_dir b)
    (Py.path_join (rpmbuild_sourcedir b) (tgz_filename b)) ;;
  _ <- shell In_setup_sources
         ("cd " +:+ rpmbuild_sourcedir b +:+ "/ && tar xzf " +:+ tgz_filename b) ;;
  name <- call_find_spec_file (rpmbuild_gitcopy b) ;;
  assign (set_spec_file_name (Some name)) ;;
  assign (set_spec_file (Some (Py.path_join (rpmbuild_gitcopy b) name))).

Definition source_suffixes : list string :=
  [".tar.gz"; ".tar"; ".zip"; ".jar"; ".gem"].

(** [tgz]: [Builder.tgz] returns the path of the tarball,
    [NoTgzBuilder.tgz] returns nothing. *)
Definition tgz : M (option string) :=
  b0 <- self ;;
  match cls b0 with
  | Builder =>
      _setup_sources ;;
      b <- self ;;
      _ <- shell In_tgz
             ("cp " +:+ rpmbuild_sourcedir b +:+ "/" +:+ tgz_filename b +:+ " "
                +:+ rpmbuild_basedir b +:+ "/") ;;
      assign (set_ran_tgz true) ;;
      let full_path := Py.path_join (rpmbuild_basedir b) (tgz_filename b) in
      assign (fun b => set_sources (sources b ++ [full_path]) b) ;;
      assign (fun b => set_artifacts (artifacts b ++ [full_path]) b) ;;
      ret (Some full_path)
  | NoTgzBuilder =>
      _setup_sources ;;
      assign (set_ran_tgz true) ;;
      b <- self ;;
      names <- call_listdir (rpmbuild_gitcopy b) ;;
      let found :=
        flat_map
          (fun filename =>
             flat_map
               (fun suffix =>
                  if Py.endswith filename suffix
                  then [Py.path_join (rpmbuild_gitcopy b) filename] else [])
               source_suffixes)
          names in
      assign (fun b => set_sources (sources b ++ found) b) ;;
      ret None
  end.

(** [_setup_test_specfile]: [Builder]'s, and [NoTgzBuilder]'s override. *)
Definition _setup_test_specfile : M unit :=
  b <- self ;;
  match cls b with
  | Builder =>
      if test b && negb (ran_setup_test_specfile b) then
        let setup_specfile_script := get_script_path w "test-setup-specfile.pl" in
        let cmd :=
          setup_specfile_script +:+ " " +:+ Py.str_of_opt (spec_file b) +:+ " "
            +:+ Py.take_str 7 (git_commit_id b) +:+ " " +:+ commit_count b +:+ " "
            +:+ project_name b +:+ "-" +:+ display_version b +:+ " "
            +:+ tgz_filename b in
        _ <- shell In_setup_test_specfile cmd ;;
        assign (set_ran_setup_test_specfile true)
      else ret tt
  | NoTgzBuilder =>
      if test b then
        let script := "test-setup-specfile.pl" in
        let cmd :=
          script +:+ " " +:+ Py.str_of_opt (spec_file b) +:+ " "
            +:+ Py.take_str 7 (git_commit_id b) +:+ " " +:+ commit_count b in
        _ <- shell In_setup_test_specfile cmd ;;
        ret tt
      else ret tt
  end.

Definition _get_rpmbuild_dir_options (b : builder) : string :=
  let sourcedir :=
    match cls b with
    | Builder => rpmbuild_sourcedir b
    | NoTgzBuilder => rpmbuild_gitcopy b
    end in
  "--define " +:+ dq +:+ "_sourcedir " +:+ sourcedir +:+ dq
    +:+ " --define " +:+ dq +:+ "_builddir " +:+ rpmbuild_builddir b +:+ dq
    +:+ " --define " +:+ dq +:+ "_srcrpmdir " +:+ rpmbuild_basedir b +:+ dq
    +:+ " --define " +:+ dq +:+ "_rpmdir " +:+ rpmbuild_basedir b +:+ dq +:+ " ".

Definition define_dist_of (d : string) : string :=
  "--define 'dist " +:+ d +:+ "'".

Definition rpmbuild_prefix : string :=
  "LC_ALL=C rpmbuild --define " +:+ dq +:+ "_source_filedigest_algorithm md5"
    +:+ dq +:+ "  --define " +:+ dq +:+ "_binary_filedigest_algorithm md5" +:+ dq.

(** The command line of [_srpm]. *)
Definition srpm_cmd (b : builder) (define_dist : string) : string :=
  rpmbuild_prefix +:+ " " +:+ rpmbuild_options b +:+ " "
    +:+ _get_rpmbuild_dir_options b +:+ " " +:+ define_dist
    +:+ " --nodeps -bs " +:+ Py.str_of_opt (spec_file b).

(** The command line of [_rpm]. *)
Definition rpm_cmd (b : builder) (define_dist : string) : string :=
  rpmbuild_prefix +:+ " " +:+ rpmbuild_options b +:+ " "
    +:+ _get_rpmbuild_dir_options b +:+ " " +:+ define_dist
    +:+ " --clean -ba " +:+ Py.str_of_opt (spec_file b).

(** The [define_dist] of [_srpm]: the builder's own [dist] first, then
    the argument. *)
Definition srpm_define_dist (b : builder) (dist_arg : option string) : string :=
  if truthy (dist b) then define_dist_of (Py.str_of_opt (dist b))
  else if truthy dist_arg then define_dist_of (Py.str_of_opt dist_arg)
  else "".

Definition _srpm (dist_arg : option string) : M unit :=
  _create_build_dirs ;;
  b <- self ;;
  when (negb (ran_tgz b)) (_ <- tgz ;; ret tt) ;;
  when (test b) _setup_test_specfile ;;
  b <- self ;;
  let define_dist := srpm_define_dist b dist_arg in
  let cmd := srpm_cmd b define_dist in
  output <- shell In_srpm cmd ;;
  files_written <- lift (_find_wrote_in_rpmbuild_output output) ;;
  match files_written with
  | [] => fatal IndexError
  | first :: _ =>
      assign (set_srpm_location (Some first)) ;;
      assign (fun b => set_artifacts (artifacts b ++ [first]) b)
  end.

Definition rpm_parse_error : string := "Error parsing rpmbuild output".

(** The packages [_rpm] installs: all but the first file written, less
    those that contain one of the [NO_AUTO_INSTALL] words. *)
Definition do_install_of (dont_install files_written : list string)
  : list string :=
  fold_left
    (fun do_install to_inst =>
       if existsb (fun skip => Py.contains to_inst skip) dont_install
       then do_install else do_install ++ [to_inst])
    (tail files_written) [].

(** The files [_rpm] reads off the output of rpmbuild: the parse, then
    the check [len(files_written) < 2]. *)
Definition rpm_files_written (output : string) : result (list string) :=
  match _find_wrote_in_rpmbuild_output output with
  | Err e => Err e
  | Ok files_written =>
      if (length files_written <? 2)%nat then Err (ErrorOut rpm_parse_error)
      else Ok files_written
  end.

Definition _rpm : M unit :=
  _create_build_dirs ;;
  b <- self ;;
  when (negb (ran_tgz b)) (_ <- tgz ;; ret tt) ;;
  when (test b) _setup_test_specfile ;;
  b <- self ;;
  let define_dist :=
    if truthy (dist b) then define_dist_of (Py.str_of_opt (dist b)) else "" in
  let cmd := rpm_cmd b define_dist in
  output <- shell In_rpm cmd ;;
  files_written <- lift (rpm_files_written output) ;;
  assign (set_srpm_location (head files_written)) ;;
  assign (fun b => set_artifacts (artifacts b ++ files_written) b) ;;
  if auto_install b then
    let dont_install :=
      match user_config b !! "NO_AUTO_INSTALL" with
      | Some v => Py.split " " v
      | None => []
      end in
    if (0 <? length (tail files_written))%nat then
      let do_install := do_install_of dont_install files_written in
      let cmd := "sudo rpm -Uvh --force " +:+ Py.join " " do_install in
      _ <- shell In_rpm cmd ;;
      ret tt
    else ret tt
  else ret tt.

Definition _submit_build (executable koji_opts tag : string) : M unit :=
  b <- self ;;
  let cmd :=
    executable +:+ " " +:+ koji_opts +:+ " " +:+ tag +:+ " "
      +:+ Py.str_of_opt (srpm_location b) in
  if dry_run b then print_dry_run_warning cmd
  else _ <- shell In_submit_build cmd ;; ret tt.

(** What [_koji_release] does for a tag that gets through: a source
    package with the tag's [disttag], then the submission. *)
Definition koji_build_and_submit (koji_opts koji_tag disttag : string)
  : M unit :=
  _srpm (Some disttag) ;;
  _submit_build "koji" koji_opts koji_tag.

(** The body of the loop [for koji_tag in koji_tags]; [ret tt] where the
    source has [continue]. *)
Definition koji_tag_body (koji_opts koji_tag : string) : M unit :=
  b <- self ;;
  if negb (bool_decide (only_tags b = []))
     && negb (Py.mem koji_tag (only_tags b))
  then ret tt
  else
    disttag <- lift (config_get (config b) koji_tag "disttag") ;;
    if has_option (config b) koji_tag "whitelist" then
      if negb (is_whitelisted b koji_tag) then ret tt
      else koji_build_and_submit koji_opts koji_tag disttag
    else if is_blacklisted b koji_tag then ret tt
    else koji_build_and_submit koji_opts koji_tag disttag.

Definition koji_opts_of (b : builder) : string :=
  let koji_opts :=
    match user_config b !! "KOJI_OPTIONS" with
    | Some v => v
    | None => DEFAULT_KOJI_OPTS
    end in
  if scratch b then Py.join " " [koji_opts; "--scratch"] else koji_opts.

Definition _koji_release : M unit :=
  b <- self ;;
  autobuild_tags <- lift (config_get (config b) "koji" "autobuild_tags") ;;
  let koji_tags := words_of autobuild_tags in
  for_each koji_tags (koji_tag_body (koji_opts_of b)).

Definition cleanup : M unit :=
  b <- self ;;
  if negb (no_cleanup b) then
    getoutput In_cleanup ("rm -rf " +:+ rpmbuild_dir b) ;;
    _ <- shell In_cleanup ("rm -rf " +:+ cvs_package_workdir b) ;;
    ret tt
  else ret tt.

End Methods.

(** ** Options, construction and [run] *)

(** The options the model reads.  [run] is modelled for the actions
    [tgz], [srpm], [rpm] and [koji_release]; the CVS and git release
    actions and [list_tags] are taken as not requested. *)
Record options : Type := mkOptions {
  opt_dist : option string;
  opt_test : bool;
  opt_offline : bool;
  opt_auto_install : bool;
  opt_rpmbuild_options : option string;
  opt_scratch : bool;
  opt_only_tags : list string;
  opt_dry_run : bool;
  opt_no_cleanup : bool;
  opt_tgz : bool;
  opt_srpm : bool;
  opt_rpm : bool;
  opt_koji_release : bool
}.

(** What [tito.common] reports about the git repository when the builder
    is constructed. *)
Record git_facts : Type := mkGit {
  find_git_root : string;
  get_latest_commit : string;
  get_commit_count : string;
  get_build_commit : string;
  get_relative_project_dir : string
}.

Definition DEFAULT_CVS_BUILD_DIR : string := "cvswork".

(** [config.set(section, option, value)], after [add_section] where the
    section is missing. *)
Definition config_set (c : gmap string (gmap string string))
    (section option value : string) : gmap string (gmap string string) :=
  <[section := <[option := value]> (default ∅ (c !! section))]> c.

(** The loop of [__init__] over the sections of the package configuration
    and over the options of each: every option is set in the global
    configuration.  The order of the two enumerations plays no part, the
    keys being distinct. *)
Definition override_config (pkg_config global_config : gmap string (gmap string string))
  : gmap string (gmap string string) :=
  map_fold
    (fun section opts c =>
       map_fold (fun option value c => config_set c section option value) c opts)
    global_config pkg_config.

(** [__init__]: the attributes the methods above read.  The check of
    the [requirements] section and the removal of a stale build directory
    happen before any method runs and are left out.  [artifacts] is first
    assigned by [run]; it starts here at the value [run] gives it. *)
Definition new_builder (c : class) (name version tag build_dir : string)
    (pkg_config global_config : gmap string (gmap string string))
    (user_config : gmap string string) (o : options) (git : git_facts)
  : builder :=
  let display_version :=
    _get_display_version (opt_test o) version (get_commit_count git)
      (get_latest_commit git) in
  let project_name_and_sha1 := name +:+ "-" +:+ get_build_commit git in
  let tgz_base := name +:+ "-" +:+ display_version in
  let rpmbuild_dir :=
    Py.path_join build_dir ("rpmbuild-" +:+ project_name_and_sha1) in
  let rpmbuild_sourcedir := Py.path_join rpmbuild_dir "SOURCES" in
  let cvs_workdir := Py.path_join build_dir DEFAULT_CVS_BUILD_DIR in
  mkBuilder
    (mkAttrs c
       (find_git_root git)
       (Py.path_join (find_git_root git) "rel-eng")
       name tag version
       (opt_dist o) (opt_test o) (opt_offline o) (opt_auto_install o)
       (default "" (opt_rpmbuild_options o))
       (opt_scratch o) (opt_only_tags o) (opt_dry_run o)
       (override_config pkg_config global_config)
       user_config
       build_dir
       display_version
       (get_commit_count git)
       (get_build_commit git)
       project_name_and_sha1
       (get_relative_project_dir git)
       (tgz_base +:+ ".tar.gz")
       tgz_base
       rpmbuild_dir
       rpmbuild_sourcedir
       (Py.path_join rpmbuild_dir "BUILD")
       (Py.path_join rpmbuild_sourcedir tgz_base)
       cvs_workdir
       (Py.path_join cvs_workdir name))
    false false false None None [] None [].

(** [Builder.run] when none of [release], [cvs_release], [git_release] and
    [list_tags] is requested: those branches of the source, and the
    [cleanup] followed by [sys.exit] inside the CVS and git ones, are not
    modelled. *)
Definition run (w : world) (o : options) : M (list string) :=
  assign (set_no_cleanup (opt_no_cleanup o)) ;;
  assign (set_artifacts []) ;;
  when (opt_tgz o) (_ <- tgz w ;; ret tt) ;;
  when (opt_srpm o) (_srpm w None) ;;
  when (opt_rpm o) (_rpm w) ;;
  when (opt_koji_release o) (_koji_release w) ;;
  cleanup w ;;
  b <- self ;;
  ret (artifacts b).

(** Counting in the log: the exports of the source tree and the calls
    of the helper that rewrites the spec file for a test build. *)
Definition is_export (e : event) : bool :=
  match e with CreateTgz _ _ _ _ => true | _ => false end.

Definition is_specfile_rewrite (e : event) : bool :=
  match e with Shell In_setup_test_specfile _ => true | _ => false end.

Definition count (p : event -> bool) (l : list event) : nat :=
  length (filter (fun e => p e = true) l).

(** Following the words of the specification: the allow-list of a tag,
    when it has one, decides alone; otherwise a deny-list that names the
    project blocks the build. *)
Definition allow_list (b : attrs) (koji_tag : string) : option (list string) :=
  words_of <$> (config b !! koji_tag ≫= (.!! "whitelist")).

Definition deny_list (b : attrs) (koji_tag : string) : option (list string) :=
  words_of <$> (config b !! koji_tag ≫= (.!! "blacklist")).

Definition eligible_spec (b : attrs) (koji_tag : string) : Prop :=
  match allow_list b koji_tag with
  | Some allowed => project_name b ∈ allowed
  | None =>
      match deny_list b koji_tag with
      | Some denied => project_name b ∉ denied
      | None => True
      end
  end.

(** A property [I] of the object and the log that a method keeps from a
    given state when it returns, with [E] left when it exits. *)
Definition keeps {A} (I E : builder -> list event -> Prop) (m : M A)
    (b : builder) (l : list event) : Prop :=
  I b l ->
  match m b l with
  | (Ok _, b', l') => I b' l'
  | (Err _, b', l') => E b' l'
  end.

(** What every assignment made by the methods respects: the fixed
    attributes stay, and the two flags are never taken back. *)
Definition frame (b b' : builder) : Prop :=
  fixed b' = fixed b /\
  (ran_tgz b = true -> ran_tgz b' = true) /\
  (ran_setup_test_specfile b = true -> ran_setup_test_specfile b' = true).

(** What [_submit_build] adds to the log for a Koji tag: the submission,
    or the warning of a dry run. *)
Definition submission (b : builder) (koji_opts tag srpm : string) : event :=
  let cmd := "koji" +:+ " " +:+ koji_opts +:+ " " +:+ tag +:+ " " +:+ srpm in
  if dry_run b then DryRun cmd else Shell In_submit_build cmd.

(** The properties followed through the methods.  [grown a0 l0]: the
    fixed attributes are [a0] and the log extends [l0].  [exported n]: the
    sources are ready and the log holds [n] exports.  [rewritten_once]: the
    object is a plain [Builder], the spec file has been rewritten for a test
    build at most once, not at all while the flag is unset, and not at all
    outside a test build; [rewritten_at_most_once] is what is left of it
    when a method exits. *)
Definition grown (a0 : attrs) (l0 : list event)
    (b : builder) (l : list event) : Prop :=
  fixed b = a0 /\ l0 `prefix_of` l.

Definition exported (n : nat) (b : builder) (l : list event) : Prop :=
  ran_tgz b = true /\ count is_export l = n.

Definition rewritten_once (b : builder) (l : list event) : Prop :=
  cls b = Builder /\
  count is_specfile_rewrite l <= 1 /\
  (ran_setup_test_specfile b = false -> count is_specfile_rewrite l = 0) /\
  (test b = false -> count is_specfile_rewrite l = 0).

Definition rewritten_at_most_once (b : builder) (l : list event) : Prop :=
  count is_specfile_rewrite l <= 1 /\
  (test b = false -> count is_specfile_rewrite l = 0).

(** ** Concrete inputs used by the examples below *)

Definition dist_shown (cmd : string) : string :=
  if Py.contains cmd "dist .fc12" then ".fc12"
  else if Py.contains cmd "dist .el5" then ".el5"
  else "".

(** An outside where every command succeeds and rpmbuild reports a source
    package named after the dist it was given, then a binary package. *)
Definition quiet_world : world :=
  mkWorld
    (fun _ cmd =>
       if Py.contains cmd "rpmbuild" then
         Some ("Wrote: /tmp/tito/pkg-1.0-1" +:+ dist_shown cmd +:+ ".src.rpm" +:+ nl
                 +:+ "Wrote: /tmp/tito/pkg-1.0-1" +:+ dist_shown cmd +:+ ".noarch.rpm"
                 +:+ nl)
       else Some "")
    (fun _ _ _ => true)
    (fun _ _ => Some "pkg.spec")
    (fun _ _ => ["pkg.spec"; "pkg-1.0.tar.gz"])
    (fun script => "/usr/share/tito/" +:+ script).

Definition git_example : git_facts :=
  mkGit "/home/dev/repo" "0123456789abcdef" "5" "fedcba9876543210" "pkg/".

Definition options_example (dist : option string) (test : bool)
    (tgz srpm rpm koji : bool) : options :=
  mkOptions dist test false false None false [] false true tgz srpm rpm koji.

Definition tag_section (disttag : string) (lists : list (string * string))
  : gmap string string :=
  <["disttag" := disttag]> (list_to_map lists).

Definition koji_config (tags : list (string * gmap string string))
  : gmap string (gmap string string) :=
  <["koji" := {["autobuild_tags" := Py.join " " (map fst tags)]}]>
    (list_to_map tags).

Definition builder_example (c : class) (name : string) (o : options)
    (global_config : gmap string (gmap string string)) : builder :=
  new_builder c name "1.0-1" (name +:+ "-1.0-1") "/tmp/tito" ∅ global_config ∅
    o git_example.

Definition spec_lines_example : list string :=
  ["Name: pkg" +:+ nl; "Source0: pkg-1.0.tar.gz" +:+ nl; "Patch3: a.patch" +:+ nl;
   "Patch1: b.patch" +:+ nl; "%prep" +:+ nl; "%setup -q" +:+ nl; "%build" +:+ nl].

Definition spec_lines_small : list string :=
  ["Source0: pkg-1.0.tar.gz" +:+ nl; "%prep" +:+ nl; "%setup -q" +:+ nl;
   "%build" +:+ nl].

(** ** Reading the scan of [_patch_upstream] off the lines

    The index of the last element of a list that passes a test. *)
Fixpoint last_index {A} (p : A -> bool) (l : list A) : option nat :=
  match l with
  | [] => None
  | x :: l' =>
      match last_index p l' with
      | Some k => Some (S k)
      | None => if p x then Some 0 else None
      end
  end.

Definition patch_directive (line : string) : bool :=
  bool_decide (is_Some (patch_pattern line)).

(** One more than the number on the last [PatchN:] line, 0 without one. *)
Definition number_after_last_patch (lines : list string) : N :=
  match last_index patch_directive lines with
  | Some k =>
      match lines !! k ≫= patch_pattern with
      | Some ds => (Py.int ds + 1)%N
      | None => 0%N
      end
  | None => 0%N
  end.

(** The value [int] reads off the digits of a decimal numeral, from an
    accumulator. *)
Definition uint_value (d : Decimal.uint) (acc : N) : N :=
  Py.int_acc acc (NilEmpty.string_of_uint d).

Definition spec_lines_prep_first : list string :=
  ["%prep" +:+ nl; "%setup -q" +:+ nl; "Source0: pkg-1.0.tar.gz" +:+ nl;
   "%build" +:+ nl].

(** ** Builder._list_files_to_copy

    [cvs_copy_extensions] is set by the constructors: [Builder] copies
    spec files and patches, [NoTgzBuilder] everything. *)
Definition cvs_copy_extensions (c : class) : list string :=
  match c with
  | Builder => [".spec"; ".patch"]
  | NoTgzBuilder => [""]
  end.

(** [os.path.isdir(p)] *)
Definition is_dir (fs : filesystem) (p : string) : bool :=
  match fs !! p with
  | Some Dir => true
  | _ => false
  end.

(** The loop [for extension in self.cvs_copy_extensions], giving
    [copy_it]. *)
Definition copy_it_of (extensions : list string) (filename : string) : bool :=
  fold_left
    (fun copy_it extension =>
       if Py.endswith filename extension then true else copy_it)
    extensions false.

(** One turn of [for filename in os.listdir(self.rpmbuild_gitcopy)]. *)
Definition list_files_step (c : class) (rpmbuild_gitcopy : string)
    (fs : filesystem) (files_to_copy : list string) (filename : string)
  : list string :=
  let full_filepath := Py.path_join rpmbuild_gitcopy filename in
  if is_dir fs full_filepath then files_to_copy
  else if Py.mem filename PROTECTED_BUILD_SYS_FILES then files_to_copy
  else if Py.endswith filename ".spec" then files_to_copy
  else if copy_it_of (cvs_copy_extensions c) filename
       then files_to_copy ++ [full_filepath]
       else files_to_copy.

(** [_list_files_to_copy], for a builder of class [c] whose [spec_file]
    and [rpmbuild_gitcopy] are the two strings given. *)
Definition _list_files_to_copy (c : class) (spec_file rpmbuild_gitcopy : string)
    (fs : filesystem) : list string :=
  fold_left (list_files_step c rpmbuild_gitcopy fs)
    (listdir fs rpmbuild_gitcopy) [spec_file].


(** A file name as [os.listdir] gives them: not empty and without a
    slash. *)
Definition plain_name (name : string) : Prop :=
  name <> "" /\ Py.contains name "/" = false.

(** The test of [_list_files_to_copy] on a name of the listing. *)
Definition wanted_file (c : class) (rpmbuild_gitcopy : string)
    (fs : filesystem) (filename : string) : bool :=
  negb (is_dir fs (Py.path_join rpmbuild_gitcopy filename))
  && negb (Py.mem filename PROTECTED_BUILD_SYS_FILES)
  && negb (Py.endswith filename ".spec")
  && existsb (Py.endswith filename) (cvs_copy_extensions c).




(** ** Further methods and what is followed through them *)

(** [Builder._can_build_in_cvs] and [Builder._can_build_in_koji] *)
Definition _can_build_in_cvs (b : attrs) : bool :=
  if negb (has_section (config b) "cvs") then false
  else if negb (has_option (config b) "cvs" "cvsroot") then false
  else if negb (has_option (config b) "cvs" "branches") then false
  else true.

Definition _can_build_in_koji (b : attrs) : bool :=
  if negb (has_section (config b) "koji") then false
  else if negb (has_option (config b) "koji" "autobuild_tags") then false
  else true.

(** [Builder._list_tags]: the lines it prints, [debug] telling whether
    [DEBUG] is in the environment. *)
Definition list_tags_line (debug : bool) (b : attrs) (koji_tag : string)
  : option string :=
  if is_whitelisted b koji_tag then
    Some (if debug then koji_tag +:+ " whitelisted" else koji_tag)
  else if is_blacklisted b koji_tag then
    if debug then Some (koji_tag +:+ " blacklisted") else None
  else Some koji_tag.

Definition _list_tags (debug : bool) (b : attrs) : result (list string) :=
  match config_get (config b) "koji" "autobuild_tags" with
  | Err e => Err e
  | Ok autobuild_tags =>
      let koji_tags := words_of autobuild_tags in
      Ok (fold_left
            (fun printed koji_tag =>
               match list_tags_line debug b koji_tag with
               | Some line => printed ++ [line]
               | None => printed
               end)
            koji_tags [])
  end.

(** The events of the stages that produce sources and packages, as
    opposed to submissions, dry-run warnings and cleaning up. *)
Definition stage_event (e : event) : bool :=
  match e with
  | Shell In_submit_build _ | Shell In_cleanup _ | DryRun _ => false
  | _ => true
  end.

Definition is_submit_cmd (e : event) : bool :=
  match e with Shell In_submit_build _ => true | _ => false end.

Definition is_dry_run_warning (e : event) : bool :=
  match e with DryRun _ => true | _ => false end.

Definition is_cleanup_cmd (e : event) : bool :=
  match e with Shell In_cleanup _ => true | _ => false end.

(** What the assignments made by the stages respect, [no_cleanup]
    included. *)
Definition frame_keep (b b' : builder) : Prop :=
  fixed b' = fixed b /\
  no_cleanup b' = no_cleanup b /\
  (ran_tgz b = true -> ran_tgz b' = true) /\
  (ran_setup_test_specfile b = true -> ran_setup_test_specfile b' = true).

(** Whether the loop of [_koji_release] builds for a tag. *)
Definition koji_builds (b : attrs) (koji_tag : string) : bool :=
  (bool_decide (only_tags b = []) || Py.mem koji_tag (only_tags b))
  && (if has_option (config b) koji_tag "whitelist"
      then is_whitelisted b koji_tag
      else negb (is_blacklisted b koji_tag)).

(** The properties followed: under [dry_run] the log holds [n]
    submission commands; the fixed attributes are [a0], [no_cleanup] is
    [v] and the log holds [n] cleanup commands. *)
Definition dry (n : nat) (b : builder) (l : list event) : Prop :=
  dry_run b = true /\ count is_submit_cmd l = n.

Definition not_cleaned (a0 : attrs) (v : bool) (n : nat)
    (b : builder) (l : list event) : Prop :=
  fixed b = a0 /\ no_cleanup b = v /\ count is_cleanup_cmd l = n.

(** A method leaves the workspace alone from a state: it adds no cleanup
    command to the log and leaves [no_cleanup] as it is, however it
    ends. *)
Definition leaves_workspace {A} (m : M A) (b : builder) (l : list event)
  : Prop :=
  count is_cleanup_cmd (m b l).2 = count is_cleanup_cmd l /\
  no_cleanup (m b l).1.2 = no_cleanup b.

(** An outside where rpmbuild fails and every other command succeeds, and
    options with [dry_run] and [no_cleanup] as given. *)
Definition failing_world : world :=
  mkWorld
    (fun _ cmd => if Py.contains cmd "rpmbuild" then None else Some "")
    (fun _ _ _ => true)
    (fun _ _ => Some "pkg.spec")
    (fun _ _ => ["pkg.spec"; "pkg-1.0.tar.gz"])
    (fun script => "/usr/share/tito/" +:+ script).

Definition options_dry_run (dry_run no_cleanup : bool)
    (tgz srpm rpm koji : bool) : options :=
  mkOptions None false false false None false [] dry_run no_cleanup
    tgz srpm rpm koji.

(** A tag section without a [disttag], for a project that is
    blacklisted there. *)
Definition koji_config_no_disttag : gmap string (gmap string string) :=
  <["koji" := {["autobuild_tags" := "dist-f12 dist-el5"]}]>
    (<["dist-f12" := tag_section ".fc12" []]>
       {["dist-el5" := {["blacklist" := "pkg other"]}]}).

(** [submitted a0 n m]: the fixed attributes are [a0] and the log holds
    [n] submission commands and [m] dry-run warnings. *)
Definition submitted (a0 : attrs) (n m : nat)
    (b : builder) (l : list event) : Prop :=
  fixed b = a0 /\
  count is_submit_cmd l = n /\ count is_dry_run_warning l = m.

(** [UpstreamBuilder._get_upstream_version]: [status] and [output] are
    what [commands.getstatusoutput] gives for the search of
    [upstreamversion] in the spec file. *)
Definition _get_upstream_version (b : attrs) (status : N) (output : string)
  : string :=
  if (status =? 0)%N && negb (String.eqb output "") then output
  else if test b then List.hd "" (Py.split "-" (build_version b))
  else display_version b.

(** [_sync_files] with the outcome of the copy command left open:
    [run_cp src dst fs] is what the command [cp src dst] makes of the file
    system, [None] when its status is not zero.  [cp] above is the command
    on names that the shell takes as they are, with the source away from
    the destination. *)
Section SyncWith.
Variable run_cp : string -> string -> filesystem -> option filesystem.

Fixpoint sync_copy_loop_with (dest_dir : string) (files_to_copy : list string)
    (new_files : list string) (fs : filesystem)
  : result (list string) * filesystem :=
  match files_to_copy with
  | [] => (Ok new_files, fs)
  | copy_me :: rest =>
      let base_filename := Py.basename copy_me in
      let dest_path := Py.path_join dest_dir base_filename in
      let new_files :=
        if path_exists fs dest_path then new_files ++ [base_filename]
        else new_files in
      let cmd := "cp " +:+ copy_me +:+ " " +:+ dest_path in
      match run_cp copy_me dest_path fs with
      | Some fs' => sync_copy_loop_with dest_dir rest new_files fs'
      | None => (Err (CommandFailed cmd), fs)
      end
  end.

Definition _sync_files_with (files_to_copy : list string) (dest_dir : string)
    (fs : filesystem)
  : result (list string * list string * list string) * filesystem :=
  match fs !! dest_dir with
  | Some Dir =>
      let filenames_to_copy := map Py.basename files_to_copy in
      let copied_files : list string := [] in
      match sync_copy_loop_with dest_dir files_to_copy [] fs with
      | (Err e, fs') => (Err e, fs')
      | (Ok new_files, fs') =>
          let old_files := sync_old_files filenames_to_copy (listdir fs' dest_dir) in
          (Ok (new_files, copied_files, old_files), fs')
      end
  | _ => (Err (OSError dest_dir), fs)
  end.

End SyncWith.

(* ===================================================================== *)
(** * Part II: lemmas and theorems                                        *)
(* ===================================================================== *)

(** ** Strings *)

Lemma split_nonempty sep s : Py.split sep s <> [].
Proof.
  destruct s as [|c s]; simpl; [discriminate|].
  destruct (Ascii.eqb c sep); [discriminate|].
  destruct (Py.split sep s); discriminate.
Qed.

Lemma contains_char_cons c x s :
  Py.contains (String c s) (String x EmptyString)
  = Ascii.eqb x c || Py.contains s (String x EmptyString).
Proof.
  cbn [Py.contains String.prefix].
  destruct (Ascii.ascii_dec x c) as [->|Hne].
  - rewrite Ascii.eqb_refl. now destruct s.
  - apply Ascii.eqb_neq in Hne. now rewrite Hne.
Qed.

Lemma contains_char_empty x : Py.contains "" (String x EmptyString) = false.
Proof. reflexivity. Qed.

(** The first field of a split holds no separator. *)
Lemma split_head_no_sep sep s :
  Py.contains (List.hd "" (Py.split sep s)) (String sep EmptyString) = false.
Proof.
  induction s as [|c s IH]; [reflexivity|].
  cbn [Py.split]. destruct (Ascii.eqb c sep) eqn:Hc; [reflexivity|].
  pose proof (split_nonempty sep s) as Hne.
  destruct (Py.split sep s) as [|w ws]; [congruence|].
  cbn [List.hd] in *. rewrite contains_char_cons, IH.
  rewrite Ascii.eqb_sym, Hc. reflexivity.
Qed.

(** The string is its first field, followed by nothing or by a separator
    and the rest. *)
Lemma split_head_prefix sep s :
  let d := List.hd "" (Py.split sep s) in
  s = d \/ exists rest, s = d +:+ String sep rest.
Proof.
  induction s as [|c s IH]; [now left|].
  simpl. destruct (Ascii.eqb c sep) eqn:Hc.
  - apply Ascii.eqb_eq in Hc. subst c. right. now exists s.
  - pose proof (split_nonempty sep s) as Hne.
    destruct (Py.split sep s) as [|w ws]; [congruence|].
    simpl in *. destruct IH as [->|[rest ->]].
    + now left.
    + right. now exists rest.
Qed.

Lemma take_str_prefix n s : exists rest, s = Py.take_str n s +:+ rest.
Proof.
  revert s. induction n as [|n IH]; intros s.
  - now exists s.
  - destruct s as [|c s]; [now exists ""|].
    destruct (IH s) as [rest Hrest]. exists rest.
    simpl. unfold String.app. simpl. f_equal. exact Hrest.
Qed.

Lemma take_str_length n s :
  String.length (Py.take_str n s) = Nat.min n (String.length s).
Proof.
  revert s. induction n as [|n IH]; intros [|c s]; simpl; auto.
Qed.

(** ** The display version *)

Lemma git_prefix_has_dash x : Py.contains ("git-" +:+ x) "-" = true.
Proof.
  change ("git-" +:+ x) with (String "g" (String "i" (String "t" (String "-" x)))).
  rewrite !contains_char_cons. reflexivity.
Qed.

(** C3. Without [test] the display version is what precedes the first
    dash of the requested version (it holds no dash, and the version is it,
    alone or followed by a dash and a rest); with [test] it is [git-], the
    commit count, a dot and the first seven characters of the commit id;
    and a test display version is never the display version of a release,
    whatever the versions, counts and commits, nor any string without a
    dash. *)
Theorem display_version_cases :
  (forall v c k,
     let d := _get_display_version false v c k in
     Py.contains d "-" = false /\
     (v = d \/ exists rest, v = d +:+ "-" +:+ rest)) /\
  (forall v c k,
     exists k7 rest,
       _get_display_version true v c k = "git-" +:+ c +:+ "." +:+ k7 /\
       k = k7 +:+ rest /\
       String.length k7 = Nat.min 7 (String.length k)) /\
  (forall v c k v' c' k',
     _get_display_version true v c k <> _get_display_version false v' c' k') /\
  (forall v c k release,
     Py.contains release "-" = false ->
     _get_display_version true v c k <> release).
Proof.
  assert (Hdash : forall v c k release,
            Py.contains release "-" = false ->
            _get_display_version true v c k <> release).
  { intros v c k release Hno Heq. unfold _get_display_version in Heq.
    rewrite <- Heq, git_prefix_has_dash in Hno. discriminate Hno. }
  split; [|split; [|split]].
  - intros v c k. simpl. split.
    + apply (split_head_no_sep "-").
    + apply (split_head_prefix "-").
  - intros v c k. destruct (take_str_prefix 7 k) as [rest Hrest].
    exists (Py.take_str 7 k), rest. split; [reflexivity|].
    split; [exact Hrest|apply take_str_length].
  - intros v c k v' c' k'. apply Hdash. apply (split_head_no_sep "-").
  - exact Hdash.
Qed.

(** The test build of five commits past [1.2.3-4] against the release
    version [1.2.3]. *)
Lemma display_version_cases_witness :
  Py.contains "1.2.3" "-" = false /\
  _get_display_version true "1.2.3-4" "5" "0123456789abcdef" <> "1.2.3".
Proof.
  assert (H : Py.contains "1.2.3" "-" = false) by reflexivity.
  split; [exact H|].
  exact (proj2 (proj2 (proj2 display_version_cases))
           "1.2.3-4" "5" "0123456789abcdef" "1.2.3" H).
Defined.

(** ** Parsing the output of rpmbuild *)

Lemma wrote_loop lines acc :
  fold_left wrote_line lines acc
  = acc ++ map (Py.drop_str 7) (List.filter is_wrote_line lines).
Proof.
  revert acc. induction lines as [|line lines IH]; intros acc; simpl.
  - now rewrite app_nil_r.
  - rewrite IH. unfold wrote_line, is_wrote_line.
    destruct (Py.startswith line look_for); simpl; [|reflexivity].
    now rewrite <- app_assoc.
Qed.

Lemma find_wrote_paths output :
  _find_wrote_in_rpmbuild_output output
  = match wrote_paths output with
    | [] => Err (ErrorOut no_wrote_lines)
    | paths => Ok paths
    end.
Proof.
  unfold _find_wrote_in_rpmbuild_output. rewrite wrote_loop.
  cbn [app]. fold (wrote_paths output). now destruct (wrote_paths output).
Qed.

(** ** Scanning the spec file for the insertion points *)

Lemma scan_line_array_index st line :
  array_index (scan_line st line) = array_index st + 1.
Proof.
  unfold scan_line.
  destruct (source_pattern line), (patch_pattern line),
    (Py.startswith line "%prep"), (Py.startswith line "%setup"); reflexivity.
Qed.

Lemma scan_line_insert_index st line :
  patch_insert_index (scan_line st line)
  = if anchor_line line then array_index st + 1 else patch_insert_index st.
Proof.
  unfold scan_line, anchor_line.
  destruct (source_pattern line), (patch_pattern line),
    (Py.startswith line "%prep"), (Py.startswith line "%setup"); reflexivity.
Qed.

Lemma scan_line_apply_index st line :
  patch_apply_index (scan_line st line)
  = if marker_line line then array_index st + 2 else patch_apply_index st.
Proof.
  unfold scan_line, marker_line.
  destruct (source_pattern line), (patch_pattern line),
    (Py.startswith line "%prep"), (Py.startswith line "%setup"); reflexivity.
Qed.

Lemma scan_line_patch_number st line :
  patch_number (scan_line st line)
  = match patch_pattern line with
    | Some ds => (Py.int ds + 1)%N
    | None => patch_number st
    end.
Proof.
  unfold scan_line.
  destruct (source_pattern line), (patch_pattern line),
    (Py.startswith line "%prep"), (Py.startswith line "%setup"); reflexivity.
Qed.

Lemma scan_array_index lines st :
  array_index (fold_left scan_line lines st) = array_index st + length lines.
Proof.
  revert st. induction lines as [|line lines IH]; intros st; simpl; [lia|].
  rewrite IH, scan_line_array_index. lia.
Qed.

(** Without an anchor the insert index stays; with one it lies past the
    index the scan started from, and within the lines scanned. *)
Lemma scan_insert_index lines st :
  let st' := fold_left scan_line lines st in
  if existsb anchor_line lines
  then array_index st < patch_insert_index st'
       /\ patch_insert_index st' <= array_index st + length lines
  else patch_insert_index st' = patch_insert_index st.
Proof.
  revert st. induction lines as [|line lines IH]; intros st; simpl; [reflexivity|].
  specialize (IH (scan_line st line)). cbv zeta in IH.
  rewrite scan_line_array_index, scan_line_insert_index in IH.
  destruct (anchor_line line); simpl.
  - destruct (existsb anchor_line lines); [lia|].
    rewrite IH. lia.
  - destruct (existsb anchor_line lines); [lia|]. exact IH.
Qed.

Lemma scan_apply_index lines st :
  let st' := fold_left scan_line lines st in
  if existsb marker_line lines
  then array_index st + 2 <= patch_apply_index st'
       /\ patch_apply_index st' <= array_index st + length lines + 1
  else patch_apply_index st' = patch_apply_index st.
Proof.
  revert st. induction lines as [|line lines IH]; intros st; simpl; [reflexivity|].
  specialize (IH (scan_line st line)). cbv zeta in IH.
  rewrite scan_line_array_index, scan_line_apply_index in IH.
  destruct (marker_line line); simpl.
  - destruct (existsb marker_line lines); [lia|].
    rewrite IH. lia.
  - destruct (existsb marker_line lines); [lia|]. exact IH.
Qed.

Lemma scan_lines_insert_zero lines :
  patch_insert_index (scan_lines lines) = 0 <-> existsb anchor_line lines = false.
Proof.
  pose proof (scan_insert_index lines scan0) as H. simpl in H.
  fold (scan_lines lines) in H.
  destruct (existsb anchor_line lines); split; intros; try done; lia.
Qed.

Lemma scan_lines_apply_zero lines :
  patch_apply_index (scan_lines lines) = 0 <-> existsb marker_line lines = false.
Proof.
  pose proof (scan_apply_index lines scan0) as H. simpl in H.
  fold (scan_lines lines) in H.
  destruct (existsb marker_line lines); split; intros; try done; lia.
Qed.

(** C5. [_patch_upstream] exits with its error as soon as one of the two
    indices is still 0 after the scan; an index is still 0 exactly when no
    line anchors it, so a spec file without a [SourceN:] or [PatchN:] line,
    or without a [%prep] or [%setup] line, and in particular one without
    both, is refused; with both anchors the scan returns. *)
Theorem insertion_point_required (lines : list string) :
  (patch_insert_index (scan_lines lines) = 0
   \/ patch_apply_index (scan_lines lines) = 0 ->
   _patch_upstream lines = Err (ErrorOut no_insertion_point)) /\
  (existsb anchor_line lines = false \/ existsb marker_line lines = false ->
   _patch_upstream lines = Err (ErrorOut no_insertion_point)) /\
  (existsb anchor_line lines = false /\ existsb marker_line lines = false ->
   _patch_upstream lines = Err (ErrorOut no_insertion_point)) /\
  (existsb anchor_line lines = true /\ existsb marker_line lines = true ->
   is_ok (_patch_upstream lines) = true).
Proof.
  assert (Hzero : patch_insert_index (scan_lines lines) = 0
                  \/ patch_apply_index (scan_lines lines) = 0 ->
                  _patch_upstream lines = Err (ErrorOut no_insertion_point)).
  { intros H. unfold _patch_upstream.
    destruct H as [-> | ->]; [reflexivity|].
    now rewrite orb_true_r. }
  split; [exact Hzero|]. split; [|split].
  - intros [H|H]; apply Hzero.
    + left. now apply scan_lines_insert_zero.
    + right. now apply scan_lines_apply_zero.
  - intros [H _]. apply Hzero. left. now apply scan_lines_insert_zero.
  - intros [Ha Hm]. unfold _patch_upstream.
    destruct (patch_insert_index (scan_lines lines)) eqn:Hi.
    + apply scan_lines_insert_zero in Hi. congruence.
    + destruct (patch_apply_index (scan_lines lines)) eqn:Hp; [|reflexivity].
      apply scan_lines_apply_zero in Hp. congruence.
Qed.

(** A spec file with neither anchor, one with only the first, and one
    with both. *)
Lemma insertion_point_required_witness :
  _patch_upstream ["Name: pkg" +:+ nl; "%build" +:+ nl]
    = Err (ErrorOut no_insertion_point) /\
  _patch_upstream ["Source0: pkg.tar.gz" +:+ nl; "%build" +:+ nl]
    = Err (ErrorOut no_insertion_point) /\
  is_ok (_patch_upstream spec_lines_small) = true.
Proof.
  split; [|split].
  - destruct (insertion_point_required ["Name: pkg" +:+ nl; "%build" +:+ nl])
      as (_ & _ & H & _).
    apply H. split; reflexivity.
  - destruct (insertion_point_required ["Source0: pkg.tar.gz" +:+ nl; "%build" +:+ nl])
      as (_ & H & _).
    apply H. right. reflexivity.
  - destruct (insertion_point_required spec_lines_small) as (_ & _ & _ & H).
    apply H. split; reflexivity.
Defined.

Lemma scan_patch_number_kept lines st :
  Forall (fun line => patch_pattern line = None) lines ->
  patch_number (fold_left scan_line lines st) = patch_number st.
Proof.
  intros H. revert st. induction H as [|line lines Hl _ IH]; intros st; simpl.
  - reflexivity.
  - rewrite IH, scan_line_patch_number, Hl. reflexivity.
Qed.

(** The number returned is one more than that of the last [PatchN:] line. *)
Lemma scan_patch_number_last pre line post ds st :
  patch_pattern line = Some ds ->
  Forall (fun line => patch_pattern line = None) post ->
  patch_number (fold_left scan_line (pre ++ line :: post) st) = (Py.int ds + 1)%N.
Proof.
  intros Hl Hpost. rewrite fold_left_app. simpl.
  rewrite scan_patch_number_kept by assumption.
  now rewrite scan_line_patch_number, Hl.
Qed.

(** When every anchor of the [PatchN:] line precedes a [%prep] or
    [%setup] line, the scan returns, and the index for [%patchN] is at
    least two past the index for [PatchN:]. *)
Lemma patch_points_ordered pre m post :
  existsb anchor_line pre = true ->
  marker_line m = true ->
  existsb anchor_line (m :: post) = false ->
  exists n i a,
    _patch_upstream (pre ++ m :: post) = Ok (n, i, a, pre ++ m :: post) /\
    0 < i <= length pre /\
    length pre + 2 <= a <= length (pre ++ m :: post) + 1.
Proof.
  intros Hpre Hm Hpost.
  pose proof (scan_insert_index pre scan0) as Hi1.
  pose proof (scan_array_index pre scan0) as Hx1.
  cbv zeta in Hi1. rewrite Hpre in Hi1. simpl in Hi1, Hx1.
  set (st1 := fold_left scan_line pre scan0) in *.
  pose proof (scan_insert_index (m :: post) st1) as Hi2.
  pose proof (scan_apply_index (m :: post) st1) as Ha2.
  cbv zeta in Hi2, Ha2. rewrite Hpost in Hi2.
  assert (Hmk : existsb marker_line (m :: post) = true) by (simpl; now rewrite Hm).
  rewrite Hmk in Ha2.
  assert (Hfold : scan_lines (pre ++ m :: post) = fold_left scan_line (m :: post) st1)
    by (unfold scan_lines; now rewrite fold_left_app).
  unfold _patch_upstream. rewrite Hfold.
  set (st2 := fold_left scan_line (m :: post) st1) in *.
  exists (patch_number st2), (patch_insert_index st2), (patch_apply_index st2).
  rewrite length_app. simpl length in *.
  destruct (patch_insert_index st2) eqn:E1; [lia|].
  destruct (patch_apply_index st2) eqn:E2; [lia|].
  simpl. split; [reflexivity|lia].
Qed.

(** With [Source0:] and [Patch3:] as the only anchors, in either order,
    ahead of [%prep], the number is 4. *)
Example patch_points_source_then_patch :
  _patch_upstream ["Source0: a.tar.gz" +:+ nl; "Patch3: a.patch" +:+ nl;
                   "%prep" +:+ nl; "%setup -q" +:+ nl]
  = Ok (4%N, 2, 5, ["Source0: a.tar.gz" +:+ nl; "Patch3: a.patch" +:+ nl;
                    "%prep" +:+ nl; "%setup -q" +:+ nl]).
Proof. reflexivity. Qed.

Example patch_points_patch_then_source :
  _patch_upstream ["Patch3: a.patch" +:+ nl; "Source0: a.tar.gz" +:+ nl;
                   "%prep" +:+ nl; "%setup -q" +:+ nl]
  = Ok (4%N, 2, 5, ["Patch3: a.patch" +:+ nl; "Source0: a.tar.gz" +:+ nl;
                    "%prep" +:+ nl; "%setup -q" +:+ nl]).
Proof. reflexivity. Qed.

(** C4. On a spec file that holds [Source0:], [Patch3:] and then
    [Patch1:] ahead of [%prep], the largest patch index is 3 and the
    number to use is 4, but [_patch_upstream] returns 2, one more than the
    index of the last [PatchN:] line it saw; the index for [%patchN] does
    lie past the one for [PatchN:]. *)
Theorem patch_number_is_last_not_largest :
  patch_number_spec spec_lines_example = 4%N /\
  _patch_upstream spec_lines_example = Ok (2%N, 4, 7, spec_lines_example).
Proof. split; reflexivity. Qed.

(** ** Inserting the two patch lines *)

Lemma insert_patch_lines_split (pre mid post : list string) n f :
  insert_patch_lines (pre ++ mid ++ post) n (length pre)
    (length pre + length mid + 1) f
  = pre ++ patch_line n f :: mid ++ apply_line n :: post.
Proof.
  unfold insert_patch_lines, py_insert.
  rewrite take_app_length, drop_app_length.
  replace (length pre + length mid + 1)
    with (length (pre ++ patch_line n f :: mid)) by (rewrite length_app; simpl; lia).
  replace (pre ++ patch_line n f :: mid ++ post)
    with ((pre ++ patch_line n f :: mid) ++ post) by (now rewrite <- app_assoc).
  rewrite take_app_length, drop_app_length.
  now rewrite <- app_assoc.
Qed.

(** C6, as the code has it. The [PatchN:] line is inserted first, at the
    insert index, and the [%patchN] line second, at the apply index of the
    list that already holds the first.  With the insert index below the
    apply index, and the apply index at most one past the end, the
    result is the original lines with the [PatchN:] line ahead of original
    line [i] and the [%patchN] line ahead of original line [a - 1]: two
    lines more, the first at position [i] and the second at position [a] of
    the result. *)
Theorem insert_patch_lines_layout (lines : list string) n i a f :
  i < a -> a <= length lines + 1 ->
  let out := insert_patch_lines lines n i a f in
  out = take i lines ++ patch_line n f
          :: take (a - 1 - i) (drop i lines) ++ apply_line n :: drop (a - 1) lines /\
  length out = length lines + 2 /\
  out !! i = Some (patch_line n f) /\
  out !! a = Some (apply_line n).
Proof.
  intros Hia Ha out.
  set (pre := take i lines).
  set (mid := take (a - 1 - i) (drop i lines)).
  set (post := drop (a - 1) lines).
  assert (Hpre : length pre = i) by (unfold pre; rewrite length_take; lia).
  assert (Hmid : length mid = a - 1 - i)
    by (unfold mid; rewrite length_take, length_drop; lia).
  assert (Hlines : lines = pre ++ mid ++ post).
  { unfold pre, mid, post.
    rewrite <- (take_drop i lines) at 1. f_equal.
    rewrite <- (take_drop (a - 1 - i) (drop i lines)) at 1. f_equal.
    rewrite drop_drop. f_equal. lia. }
  assert (Hout : out = pre ++ patch_line n f :: mid ++ apply_line n :: post).
  { unfold out. rewrite Hlines at 1.
    replace i with (length pre) by exact Hpre.
    replace a with (length pre + length mid + 1) by lia.
    apply insert_patch_lines_split. }
  split; [exact Hout|]. rewrite Hout. split; [|split].
  - rewrite (f_equal length Hlines), !length_app. simpl. rewrite !length_app. simpl. lia.
  - rewrite <- Hpre. now rewrite list_lookup_middle.
  - replace (pre ++ patch_line n f :: mid ++ apply_line n :: post)
      with ((pre ++ patch_line n f :: mid) ++ apply_line n :: post)
      by (now rewrite <- app_assoc).
    apply list_lookup_middle. rewrite length_app. simpl. lia.
Qed.

(** On the small spec file the indices computed are 1 and 4, and the
    lines land as the theorem says. *)
Lemma insert_patch_lines_layout_witness :
  1 < 4 /\ 4 <= length spec_lines_small + 1 /\
  insert_patch_lines spec_lines_small 0 1 4 "f.patch"
  = ["Source0: pkg-1.0.tar.gz" +:+ nl; "Patch0: f.patch" +:+ nl; "%prep" +:+ nl;
     "%setup -q" +:+ nl; "%patch0 -p1" +:+ nl; "%build" +:+ nl].
Proof.
  assert (H1 : 1 < 4) by lia.
  assert (H2 : 4 <= length spec_lines_small + 1) by (simpl; lia).
  split; [exact H1|]. split; [exact H2|].
  destruct (insert_patch_lines_layout spec_lines_small 0 1 4 "f.patch" H1 H2)
    as [Hout _].
  rewrite Hout. reflexivity.
Defined.

(** C6, as stated, fails: on the small spec file the indices computed are
    1 and 4, and inserting at the larger index first, each index taken
    against the original lines, puts [%patch0] after [%build] at the end,
    which is not what the code writes. *)
Lemma insertion_order_counterexample :
  _patch_upstream spec_lines_small = Ok (0%N, 1, 4, spec_lines_small) /\
  applyPatchInsertion_spec spec_lines_small 0 1 4 "f.patch"
  = ["Source0: pkg-1.0.tar.gz" +:+ nl; "Patch0: f.patch" +:+ nl; "%prep" +:+ nl;
     "%setup -q" +:+ nl; "%build" +:+ nl; "%patch0 -p1" +:+ nl] /\
  insert_patch_lines spec_lines_small 0 1 4 "f.patch"
  <> applyPatchInsertion_spec spec_lines_small 0 1 4 "f.patch".
Proof.
  split; [reflexivity|]. split; [reflexivity|].
  vm_compute. discriminate.
Qed.

(** ** Syncing files into a build system checkout *)

Lemma sync_old_files_loop names listing acc :
  fold_left
    (fun old_files filename =>
       if negb (Py.mem filename PROTECTED_BUILD_SYS_FILES)
          && negb (Py.mem filename names)
       then old_files ++ [filename] else old_files)
    listing acc
  = acc ++ List.filter (is_obsolete names) listing.
Proof.
  revert acc. induction listing as [|x listing IH]; intros acc; simpl.
  - now rewrite app_nil_r.
  - rewrite IH. unfold is_obsolete.
    destruct (negb (Py.mem x PROTECTED_BUILD_SYS_FILES) && negb (Py.mem x names));
      [now rewrite <- app_assoc | reflexivity].
Qed.

(** What holds of every successful sync: nothing is ever reported as
    copied over, and the files to remove are the entries of the destination
    that are neither protected nor among the names copied. *)
Lemma sync_files_old_and_copied files dest fs new_files copied_files old_files fs' :
  _sync_files files dest fs = (Ok (new_files, copied_files, old_files), fs') ->
  copied_files = [] /\
  forall name,
    name ∈ old_files <->
    (name ∈ listdir fs' dest) /\ (name ∉ PROTECTED_BUILD_SYS_FILES)
    /\ (name ∉ map Py.basename files).
Proof.
  unfold _sync_files. intros H.
  destruct (fs !! dest) as [[|]|]; try discriminate.
  destruct (sync_copy_loop dest files [] fs) as [[nf|e] fs1]; [|discriminate].
  injection H as <- <- <- <-. split; [reflexivity|].
  intros name. unfold sync_old_files. rewrite sync_old_files_loop. simpl.
  rewrite list_elem_of_In, filter_In, <- list_elem_of_In.
  unfold is_obsolete, Py.mem.
  rewrite andb_true_iff, !negb_true_iff, !bool_decide_eq_false. tauto.
Qed.

(** C1. With [a.spec] and [b.patch] to copy into a checkout that holds
    [a.spec], [c.patch] and [.git]: both files are copied and [c.patch] is
    reported for removal, but the method returns [a.spec], which was
    already there, as the new file, leaves out [b.patch], which was not, and
    returns no file as copied over; by the classification of the
    specification [b.patch] is new and [a.spec] updated. *)
Theorem sync_files_reports_existing_as_new :
  let files := ["/git/pkg/a.spec"; "/git/pkg/b.patch"] in
  let dest := "/cvs/pkg/F-12" in
  let out := _sync_files files dest fs_example in
  fst out = Ok (["a.spec"], [], ["c.patch"]) /\
  sync_plan_spec files dest fs_example = (["b.patch"], ["a.spec"], ["c.patch"]) /\
  snd out !! "/cvs/pkg/F-12/a.spec" = Some (File "spec v2") /\
  snd out !! "/cvs/pkg/F-12/b.patch" = Some (File "patch").
Proof. vm_compute. repeat split; reflexivity. Qed.

(** ** The monad *)

Lemma bind_run {A B} (m : M A) (k : A -> M B) b l :
  bind m k b l
  = match m b l with
    | (Ok a, b', l') => k a b' l'
    | (Err e, b', l') => (Err e, b', l')
    end.
Proof. reflexivity. Qed.

Lemma bind_ok {A B} (m : M A) (k : A -> M B) b l r b' l' :
  bind m k b l = (Ok r, b', l') ->
  exists a b1 l1, m b l = (Ok a, b1, l1) /\ k a b1 l1 = (Ok r, b', l').
Proof.
  rewrite bind_run. destruct (m b l) as [[[a|e] b1] l1]; [|discriminate].
  intros H. now exists a, b1, l1.
Qed.

Lemma keeps_bind {A B} I E (m : M A) (k : A -> M B) b l :
  keeps I E m b l ->
  (forall a b1 l1, m b l = (Ok a, b1, l1) -> keeps I E (k a) b1 l1) ->
  keeps I E (bind m k) b l.
Proof.
  unfold keeps. intros Hm Hk HI. rewrite bind_run.
  specialize (Hm HI). destruct (m b l) as [[[a|e] b1] l1].
  - apply (Hk a b1 l1 eq_refl Hm).
  - exact Hm.
Qed.

Lemma keeps_ret {A} I E (a : A) b l : keeps I E (ret a) b l.
Proof. now intros H. Qed.

Lemma keeps_when I E c (m : M unit) b l :
  (c = true -> keeps I E m b l) -> keeps I E (when c m) b l.
Proof. destruct c; simpl; [auto|]. intros _. apply keeps_ret. Qed.

Lemma keeps_for_each {A} I E (xs : list A) (body : A -> M unit) :
  (forall x b l, keeps I E (body x) b l) ->
  forall b l, keeps I E (for_each xs body) b l.
Proof.
  intros Hbody. induction xs as [|x xs IH]; intros b l; simpl.
  - apply keeps_ret.
  - apply keeps_bind; [apply Hbody|]. intros _ b1 l1 _. apply IH.
Qed.

(** ** Eligibility of a Koji tag *)

Lemma has_option_lookup (c : gmap string (gmap string string)) section option :
  has_option c section option
  = bool_decide (is_Some (c !! section ≫= (.!! option))).
Proof.
  unfold has_option. now destruct (c !! section) as [opts|].
Qed.

Lemma is_whitelisted_allow_list b tag :
  is_whitelisted b tag
  = match allow_list b tag with
    | Some allowed => bool_decide (project_name b ∈ allowed)
    | None => false
    end.
Proof.
  unfold is_whitelisted, allow_list, has_option, config_get.
  destruct (config b !! tag) as [opts|]; simpl; [|reflexivity].
  now destruct (opts !! "whitelist") as [v|] eqn:E.
Qed.

Lemma is_blacklisted_deny_list b tag :
  is_blacklisted b tag
  = match deny_list b tag with
    | Some denied => bool_decide (project_name b ∈ denied)
    | None => false
    end.
Proof.
  unfold is_blacklisted, deny_list, has_option, config_get.
  destruct (config b !! tag) as [opts|]; simpl; [|reflexivity].
  now destruct (opts !! "blacklist") as [v|] eqn:E.
Qed.

Lemma has_whitelist_allow_list (b : attrs) tag :
  has_option (config b) tag "whitelist" = bool_decide (is_Some (allow_list b tag)).
Proof.
  rewrite has_option_lookup. unfold allow_list.
  now destruct (config b !! tag ≫= (.!! "whitelist")).
Qed.


(** ** Properties kept by the methods *)

Section KeepsCalls.
Context (I E : builder -> list event -> Prop).
Hypothesis I_E : forall b l, I b l -> E b l.

Lemma keeps_self b l : keeps I E self b l.
Proof. now intros H. Qed.

Lemma keeps_fatal {A} e b l : keeps I E (@fatal A e) b l.
Proof. intros H. now apply I_E. Qed.

Lemma keeps_lift {A} (r : result A) b l : keeps I E (lift r) b l.
Proof. destruct r; intros H; [exact H|now apply I_E]. Qed.

Lemma keeps_assign f b l :
  (I b l -> I (f b) l) -> keeps I E (assign f) b l.
Proof. now intros H. Qed.

Lemma keeps_shell w caller cmd b l :
  (I b l -> I b (l ++ [Shell caller cmd])) ->
  keeps I E (shell w caller cmd) b l.
Proof.
  unfold keeps, shell. intros H HI.
  destruct (run_command w l cmd); auto.
Qed.

Lemma keeps_getoutput caller cmd b l :
  (I b l -> I b (l ++ [Shell caller cmd])) ->
  keeps I E (getoutput caller cmd) b l.
Proof. now intros H. Qed.

Lemma keeps_call_create_tgz w p c r d b l :
  (I b l -> I b (l ++ [CreateTgz p c r d])) ->
  keeps I E (call_create_tgz w p c r d) b l.
Proof.
  unfold keeps, call_create_tgz. intros H HI.
  destruct (create_tgz w l c d); auto.
Qed.

Lemma keeps_call_find_spec_file w d b l :
  (I b l -> I b (l ++ [FindSpecFile d])) ->
  keeps I E (call_find_spec_file w d) b l.
Proof.
  unfold keeps, call_find_spec_file. intros H HI.
  destruct (find_spec_file w l d); auto.
Qed.

Lemma keeps_call_listdir w d b l :
  (I b l -> I b (l ++ [ListDir d])) ->
  keeps I E (call_listdir w d) b l.
Proof. now intros H. Qed.

Lemma keeps_print_dry_run_warning cmd b l :
  (I b l -> I b (l ++ [DryRun cmd])) ->
  keeps I E (print_dry_run_warning cmd) b l.
Proof. now intros H. Qed.

End KeepsCalls.

Lemma frame_refl b : frame b b.
Proof. now repeat split. Qed.

(** Taking a method apart along its binds, down to the calls and
    assignments it is made of. *)
Ltac keeps_read :=
  apply keeps_bind;
  [ apply keeps_self
  | let b := fresh "b" in
    let H := fresh in
    intros b ? ? H; injection H as <- <- <- ].

Ltac keeps_seq :=
  apply keeps_bind; [ | intros ? ? ? _ ].

Ltac keeps_frame I_frame :=
  apply keeps_assign; apply I_frame; repeat split; simpl; auto.

Ltac keeps_event I_E I_event :=
  first
    [ apply keeps_shell | apply keeps_getoutput | apply keeps_call_create_tgz
    | apply keeps_call_find_spec_file | apply keeps_call_listdir
    | apply keeps_print_dry_run_warning ];
  try exact I_E; apply I_event; reflexivity.

Section KeepsLeaf.
Context (w : world) (I E : builder -> list event -> Prop).
Hypothesis I_E : forall b l, I b l -> E b l.
Hypothesis I_frame : forall b b' l, frame b b' -> I b l -> I b' l.

Section NoRewrite.
Hypothesis I_event :
  forall b l e, is_specfile_rewrite e = false -> I b l -> I b (l ++ [e]).

Lemma create_build_dirs_keeps b l : keeps I E _create_build_dirs b l.
Proof. unfold _create_build_dirs. keeps_read. keeps_event I_E I_event. Qed.

Lemma setup_sources_keeps b l : keeps I E (_setup_sources w) b l.
Proof.
  unfold _setup_sources.
  keeps_seq; [apply create_build_dirs_keeps|].
  keeps_read.
  keeps_seq; [keeps_event I_E I_event|].
  keeps_seq; [keeps_event I_E I_event|].
  keeps_seq; [keeps_event I_E I_event|].
  keeps_seq; keeps_frame I_frame.
Qed.

Lemma tgz_keeps b l : keeps I E (tgz w) b l.
Proof.
  unfold tgz. keeps_read. destruct (cls b).
  - keeps_seq; [apply setup_sources_keeps|].
    keeps_read.
    keeps_seq; [keeps_event I_E I_event|].
    keeps_seq; [keeps_frame I_frame|].
    keeps_seq; [keeps_frame I_frame|].
    keeps_seq; [keeps_frame I_frame|].
    apply keeps_ret.
  - keeps_seq; [apply setup_sources_keeps|].
    keeps_seq; [keeps_frame I_frame|].
    keeps_read.
    keeps_seq; [keeps_event I_E I_event|].
    keeps_seq; [keeps_frame I_frame|].
    apply keeps_ret.
Qed.

End NoRewrite.

Section NoExport.
Hypothesis I_event :
  forall b l e, is_export e = false -> I b l -> I b (l ++ [e]).

Lemma setup_test_specfile_keeps b l : keeps I E (_setup_test_specfile w) b l.
Proof.
  unfold _setup_test_specfile. keeps_read. destruct (cls b).
  - destruct (test b && negb (ran_setup_test_specfile b)); [|apply keeps_ret].
    keeps_seq; [keeps_event I_E I_event|]. keeps_frame I_frame.
  - destruct (test b); [|apply keeps_ret].
    keeps_seq; [keeps_event I_E I_event|]. apply keeps_ret.
Qed.

End NoExport.
End KeepsLeaf.

Section KeepsAll.
Context (w : world) (I E : builder -> list event -> Prop).
Hypothesis I_E : forall b l, I b l -> E b l.
Hypothesis I_frame : forall b b' l, frame b b' -> I b l -> I b' l.
Hypothesis I_event :
  forall b l e,
    is_export e = false -> is_specfile_rewrite e = false ->
    I b l -> I b (l ++ [e]).
Hypothesis I_tgz : forall b l, ran_tgz b = false -> keeps I E (tgz w) b l.
Hypothesis I_rewrite : forall b l, keeps I E (_setup_test_specfile w) b l.

Ltac plain_event :=
  first
    [ apply keeps_shell | apply keeps_getoutput
    | apply keeps_print_dry_run_warning ];
  try exact I_E; apply I_event; reflexivity.

(** The common opening of [_srpm] and [_rpm], after the build
    directories are made. *)
Lemma sources_then_keeps (k : M unit) b l :
  (forall b l, keeps I E k b l) ->
  keeps I E
    (b <- self ;;
     when (negb (ran_tgz b)) (_ <- tgz w ;; ret tt) ;;
     when (test b) (_setup_test_specfile w) ;;
     k) b l.
Proof.
  intros Hk.
  keeps_read.
  keeps_seq.
  { apply keeps_when. intros Hran. apply negb_true_iff in Hran.
    keeps_seq; [now apply I_tgz | apply keeps_ret]. }
  keeps_seq; [apply keeps_when; intros _; apply I_rewrite|].
  apply Hk.
Qed.

Lemma ensure_sources_keeps (k : M unit) b l :
  (forall b l, keeps I E k b l) ->
  keeps I E
    (_create_build_dirs ;;
     b <- self ;;
     when (negb (ran_tgz b)) (_ <- tgz w ;; ret tt) ;;
     when (test b) (_setup_test_specfile w) ;;
     k) b l.
Proof.
  intros Hk.
  keeps_seq; [unfold _create_build_dirs; keeps_read; plain_event|].
  now apply sources_then_keeps.
Qed.

(** The end of [_srpm], from the rpmbuild command on. *)
Lemma srpm_build_keeps dist_arg b l :
  keeps I E
    (b <- self ;;
     output <- shell w In_srpm (srpm_cmd b (srpm_define_dist b dist_arg)) ;;
     files_written <- lift (_find_wrote_in_rpmbuild_output output) ;;
     match files_written with
     | [] => fatal IndexError
     | first :: _ =>
         assign (set_srpm_location (Some first)) ;;
         assign (fun b => set_artifacts (artifacts b ++ [first]) b)
     end) b l.
Proof.
  keeps_read.
  keeps_seq; [plain_event|].
  keeps_seq; [apply keeps_lift, I_E|].
  match goal with |- keeps _ _ (match ?x with _ => _ end) _ _ => destruct x end;
    [apply keeps_fatal, I_E|].
  keeps_seq; keeps_frame I_frame.
Qed.

Lemma srpm_keeps dist_arg b l : keeps I E (_srpm w dist_arg) b l.
Proof.
  unfold _srpm. apply ensure_sources_keeps. intros. apply srpm_build_keeps.
Qed.

Lemma rpm_keeps b l : keeps I E (_rpm w) b l.
Proof.
  unfold _rpm. apply ensure_sources_keeps. clear b l. intros b l.
  keeps_read.
  keeps_seq; [plain_event|].
  keeps_seq; [apply keeps_lift, I_E|].
  keeps_seq; [keeps_frame I_frame|].
  keeps_seq; [keeps_frame I_frame|].
  destruct (auto_install b); [|apply keeps_ret].
  match goal with |- keeps _ _ (if ?c then _ else _) _ _ => destruct c end;
    [|apply keeps_ret].
  keeps_seq; [plain_event|apply keeps_ret].
Qed.

Lemma submit_build_keeps executable koji_opts tag b l :
  keeps I E (_submit_build w executable koji_opts tag) b l.
Proof.
  unfold _submit_build. keeps_read.
  destruct (dry_run b); [plain_event|].
  keeps_seq; [plain_event|apply keeps_ret].
Qed.

Lemma koji_build_and_submit_keeps koji_opts tag d b l :
  keeps I E (koji_build_and_submit w koji_opts tag d) b l.
Proof.
  unfold koji_build_and_submit.
  keeps_seq; [apply srpm_keeps|apply submit_build_keeps].
Qed.

Lemma koji_tag_body_keeps koji_opts tag b l :
  keeps I E (koji_tag_body w koji_opts tag) b l.
Proof.
  unfold koji_tag_body. keeps_read.
  match goal with |- keeps _ _ (if ?c then _ else _) _ _ => destruct c end;
    [apply keeps_ret|].
  keeps_seq; [apply keeps_lift, I_E|].
  destruct (has_option (config b) tag "whitelist").
  - destruct (negb (is_whitelisted b tag));
      [apply keeps_ret|apply koji_build_and_submit_keeps].
  - destruct (is_blacklisted b tag);
      [apply keeps_ret|apply koji_build_and_submit_keeps].
Qed.

Lemma koji_release_keeps b l : keeps I E (_koji_release w) b l.
Proof.
  unfold _koji_release. keeps_read.
  keeps_seq; [apply keeps_lift, I_E|].
  apply keeps_for_each. intros. apply koji_tag_body_keeps.
Qed.

Lemma cleanup_keeps b l : keeps I E (cleanup w) b l.
Proof.
  unfold cleanup. keeps_read.
  destruct (negb (no_cleanup b)); [|apply keeps_ret].
  keeps_seq; [plain_event|].
  keeps_seq; [plain_event|apply keeps_ret].
Qed.

(** [run] calls [tgz] without looking at the flag, so here [tgz] has to
    keep the property from any state. *)
Lemma run_keeps o b l :
  (forall b l, keeps I E (tgz w) b l) -> keeps I E (run w o) b l.
Proof.
  intros Htgz. unfold run.
  keeps_seq; [keeps_frame I_frame|].
  keeps_seq; [keeps_frame I_frame|].
  keeps_seq; [apply keeps_when; intros _; keeps_seq; [apply Htgz|apply keeps_ret]|].
  keeps_seq; [apply keeps_when; intros _; apply srpm_keeps|].
  keeps_seq; [apply keeps_when; intros _; apply rpm_keeps|].
  keeps_seq; [apply keeps_when; intros _; apply koji_release_keeps|].
  keeps_seq; [apply cleanup_keeps|].
  keeps_read. apply keeps_ret.
Qed.

End KeepsAll.

(** ** Counting in the log *)

Lemma count_snoc p l e :
  count p (l ++ [e]) = count p l + (if p e then 1 else 0).
Proof.
  unfold count. rewrite filter_app, length_app. f_equal.
  rewrite filter_cons, filter_nil.
  destruct (decide (p e = true)) as [H|H].
  - now rewrite H.
  - apply not_true_is_false in H. now rewrite H.
Qed.

Lemma keeps_ok {A} I E (m : M A) b l a b1 l1 :
  keeps I E m b l -> I b l -> m b l = (Ok a, b1, l1) -> I b1 l1.
Proof. unfold keeps. intros H HI Hm. specialize (H HI). now rewrite Hm in H. Qed.

(** ** The sources are exported once, unless [tgz] is called again *)

Lemma exported_frame n b b' l : frame b b' -> exported n b l -> exported n b' l.
Proof. intros (_ & Ht & _) [H1 H2]. split; auto. Qed.

Lemma exported_event n b l e :
  is_export e = false -> exported n b l -> exported n b (l ++ [e]).
Proof.
  intros He [H1 H2]. split; [exact H1|].
  rewrite count_snoc, He. lia.
Qed.

Lemma exported_tgz w n b l :
  ran_tgz b = false -> keeps (exported n) (exported n) (tgz w) b l.
Proof. intros Hb [H _]. congruence. Qed.

Lemma exported_rewrite w n b l :
  keeps (exported n) (exported n) (_setup_test_specfile w) b l.
Proof.
  apply setup_test_specfile_keeps;
    intros; eauto using exported_frame, exported_event.
Qed.

Lemma setup_sources_exports w b l r b' l' :
  _setup_sources w b l = (Ok r, b', l') ->
  count is_export l' = S (count is_export l) /\ frame b b'.
Proof.
  unfold _setup_sources, _create_build_dirs, bind, self, getoutput,
    call_create_tgz, shell, call_find_spec_file, assign.
  destruct (create_tgz w _ _ _); [|discriminate].
  destruct (run_command w _ _); [|discriminate].
  destruct (find_spec_file w _ _); [|discriminate].
  intros H. injection H as <- <- <-.
  rewrite !count_snoc. simpl. split; [lia|now repeat split].
Qed.

Lemma tgz_exports w b l r b' l' :
  tgz w b l = (Ok r, b', l') ->
  ran_tgz b' = true /\ count is_export l' = S (count is_export l).
Proof.
  unfold tgz. rewrite bind_run. cbn [self]. destruct (cls b).
  - intros H. apply bind_ok in H as (a & b1 & l1 & Hs & H).
    apply setup_sources_exports in Hs as [Hc _].
    revert H. unfold bind, self, shell, assign, ret.
    destruct (run_command w _ _); [|discriminate].
    intros H. injection H as <- <- <-.
    rewrite count_snoc. simpl. split; [reflexivity|lia].
  - intros H. apply bind_ok in H as (a & b1 & l1 & Hs & H).
    apply setup_sources_exports in Hs as [Hc _].
    revert H. unfold bind, self, call_listdir, assign, ret.
    intros H. injection H as <- <- <-.
    rewrite count_snoc. simpl. split; [reflexivity|lia].
Qed.

(** C9, as the code has it. [tgz] exports whenever it is called and sets
    the flag [ran_tgz]; the flag is looked at by the callers: once it is
    set, building a source package, building the binary packages or a Koji
    release export nothing more and leave it set. *)
Theorem export_guarded_by_callers (w : world) :
  (forall b l r b' l',
     tgz w b l = (Ok r, b', l') ->
     ran_tgz b' = true /\ count is_export l' = S (count is_export l)) /\
  (forall d b l,
     ran_tgz b = true ->
     ran_tgz (_srpm w d b l).1.2 = true /\
     count is_export (_srpm w d b l).2 = count is_export l) /\
  (forall b l,
     ran_tgz b = true ->
     ran_tgz (_rpm w b l).1.2 = true /\
     count is_export (_rpm w b l).2 = count is_export l) /\
  (forall b l,
     ran_tgz b = true ->
     ran_tgz (_koji_release w b l).1.2 = true /\
     count is_export (_koji_release w b l).2 = count is_export l).
Proof.
  assert (Hall : forall (m : M unit) b l,
            (forall n b l, keeps (exported n) (exported n) m b l) ->
            ran_tgz b = true ->
            ran_tgz (m b l).1.2 = true /\
            count is_export (m b l).2 = count is_export l).
  { intros m b l Hm Hb. specialize (Hm (count is_export l) b l).
    unfold keeps in Hm. specialize (Hm (conj Hb eq_refl)).
    destruct (m b l) as [[[a|e] b1] l1]; exact Hm. }
  split; [apply tgz_exports|]. split; [|split].
  - intros d b l. apply Hall. intros n b0 l0.
    apply srpm_keeps;
      intros; eauto using exported_frame, exported_event, exported_tgz, exported_rewrite.
  - intros b l. apply Hall. intros n b0 l0.
    apply rpm_keeps;
      intros; eauto using exported_frame, exported_event, exported_tgz, exported_rewrite.
  - intros b l. apply Hall. intros n b0 l0.
    apply koji_release_keeps;
      intros; eauto using exported_frame, exported_event, exported_tgz, exported_rewrite.
Qed.

(** Once the sources are there, a source package build exports nothing. *)
Lemma export_guarded_by_callers_witness :
  let b1 :=
    set_ran_tgz true
      (builder_example Builder "pkg"
         (options_example None false false true false false) ∅) in
  ran_tgz b1 = true /\
  (ran_tgz (_srpm quiet_world None b1 []).1.2 = true /\
   count is_export (_srpm quiet_world None b1 []).2 = count is_export []).
Proof.
  intros b1.
  assert (H : ran_tgz b1 = true) by reflexivity.
  split; [exact H|].
  exact (proj1 (proj2 (export_guarded_by_callers quiet_world)) None b1 [] H).
Defined.

(** C9, as stated, fails: calling [tgz] twice exports twice, and the
    second call is no no-op, it lists the tarball a second time. *)
Lemma tgz_twice_exports_twice :
  let b0 :=
    builder_example Builder "pkg"
      (options_example None false true false false false) ∅ in
  let first := tgz quiet_world b0 [] in
  let second := tgz quiet_world first.1.2 first.2 in
  is_ok first.1.1 = true /\ is_ok second.1.1 = true /\
  count is_export first.2 = 1 /\ count is_export second.2 = 2 /\
  sources first.1.2 = ["/tmp/tito/pkg-1.0.tar.gz"] /\
  sources second.1.2 = ["/tmp/tito/pkg-1.0.tar.gz"; "/tmp/tito/pkg-1.0.tar.gz"] /\
  ~ (count is_export second.2 = 1 /\ sources second.1.2 = sources first.1.2).
Proof.
  vm_compute. repeat split; try reflexivity. intros [H _]. discriminate H.
Qed.

(** ** The spec file of a test build *)

Lemma rewritten_once_weaken b l :
  rewritten_once b l -> rewritten_at_most_once b l.
Proof. intros (_ & H1 & _ & H3). now split. Qed.

Lemma rewritten_once_frame b b' l :
  frame b b' -> rewritten_once b l -> rewritten_once b' l.
Proof.
  intros (Hf & _ & Hr) (Hc & H1 & H2 & H3). unfold rewritten_once.
  rewrite Hf. repeat split; auto.
  intros Hb'. apply H2. destruct (ran_setup_test_specfile b); [|reflexivity].
  rewrite Hr in Hb'; [discriminate|reflexivity].
Qed.

Lemma rewritten_once_event b l e :
  is_specfile_rewrite e = false ->
  rewritten_once b l -> rewritten_once b (l ++ [e]).
Proof.
  intros He (Hc & H1 & H2 & H3). unfold rewritten_once.
  rewrite count_snoc, He, Nat.add_0_r. auto.
Qed.

(** [Builder._setup_test_specfile] looks at its flag before it runs the
    helper and sets it after. *)
Lemma rewritten_once_rewrite w b l :
  keeps rewritten_once rewritten_at_most_once (_setup_test_specfile w) b l.
Proof.
  intros HI. pose proof HI as (Hc & H1 & H2 & H3).
  unfold _setup_test_specfile, bind, self, shell, assign, ret. rewrite Hc.
  destruct (test b) eqn:Ht; [|exact HI].
  destruct (ran_setup_test_specfile b) eqn:Hf; simpl; [exact HI|].
  specialize (H2 eq_refl).
  destruct (run_command w l _); unfold rewritten_once, rewritten_at_most_once;
    simpl; rewrite count_snoc, H2; simpl; rewrite ?Ht;
    repeat split; auto; discriminate.
Qed.

(** C7. A [NoTgzBuilder] in a test build runs the helper that rewrites
    the spec file each time a package is built: twice in a run that builds
    the source package and then the binary packages, and twice in a Koji
    release to two tags; the same runs of a plain [Builder] call it once. *)
Theorem notgz_rewrites_spec_file_per_build :
  let o_both := options_example None true false true true false in
  let o_koji := options_example None true false false false true in
  let tags := koji_config [("dist-f12", tag_section ".fc12" []);
                           ("dist-el5", tag_section ".el5" [])] in
  let rewrites c o cfg :=
    count is_specfile_rewrite
      (run quiet_world o (builder_example c "pkg" o cfg) []).2 in
  is_ok (run quiet_world o_both (builder_example NoTgzBuilder "pkg" o_both ∅) []).1.1
    = true /\
  is_ok (run quiet_world o_koji (builder_example NoTgzBuilder "pkg" o_koji tags) []).1.1
    = true /\
  rewrites NoTgzBuilder o_both ∅ = 2 /\
  rewrites NoTgzBuilder o_koji tags = 2 /\
  rewrites Builder o_both ∅ = 1 /\
  rewrites Builder o_koji tags = 1.
Proof. vm_compute. repeat split; reflexivity. Qed.

(** ** The log only grows, and the fixed attributes stay *)

Lemma grown_frame a0 l0 b b' l : frame b b' -> grown a0 l0 b l -> grown a0 l0 b' l.
Proof. intros (Hf & _) [H1 H2]. split; [congruence|exact H2]. Qed.

Lemma grown_event a0 l0 b l (e : event) :
  grown a0 l0 b l -> grown a0 l0 b (l ++ [e]).
Proof. intros [H1 H2]. split; [exact H1|]. now apply prefix_app_r. Qed.

Lemma grown_start (b : builder) l : grown (fixed b) l b l.
Proof. now split. Qed.

Lemma grown_tgz w a0 l0 b l : keeps (grown a0 l0) (grown a0 l0) (tgz w) b l.
Proof. apply tgz_keeps; intros; eauto using grown_frame, grown_event. Qed.

Lemma grown_rewrite w a0 l0 b l :
  keeps (grown a0 l0) (grown a0 l0) (_setup_test_specfile w) b l.
Proof.
  apply setup_test_specfile_keeps; intros; eauto using grown_frame, grown_event.
Qed.

Section Grown.
Context (w : world) (a0 : attrs) (l0 : list event).

Ltac grown_side :=
  intros; eauto using grown_frame, grown_event, grown_tgz, grown_rewrite.

Lemma grown_srpm d b l : keeps (grown a0 l0) (grown a0 l0) (_srpm w d) b l.
Proof. apply srpm_keeps; grown_side. Qed.

Lemma grown_rpm b l : keeps (grown a0 l0) (grown a0 l0) (_rpm w) b l.
Proof. apply rpm_keeps; grown_side. Qed.

Lemma grown_koji_release b l :
  keeps (grown a0 l0) (grown a0 l0) (_koji_release w) b l.
Proof. apply koji_release_keeps; grown_side. Qed.

Lemma grown_run o b l : keeps (grown a0 l0) (grown a0 l0) (run w o) b l.
Proof. apply run_keeps; grown_side. Qed.

End Grown.

(** Whatever a method did, it added to the log and left the fixed
    attributes alone. *)
Lemma grown_after {A} (m : M A) b l :
  (forall a0 l0, keeps (grown a0 l0) (grown a0 l0) m b l) ->
  fixed (m b l).1.2 = fixed b /\ l `prefix_of` (m b l).2.
Proof.
  intros H. specialize (H (fixed b) l (grown_start b l)).
  destruct (m b l) as [[[a|e] b1] l1]; exact H.
Qed.

Lemma rewritten_once_tgz w b l :
  keeps rewritten_once rewritten_at_most_once (tgz w) b l.
Proof.
  apply tgz_keeps;
    eauto using rewritten_once_weaken, rewritten_once_frame, rewritten_once_event.
Qed.

Lemma rewritten_once_srpm w d b l :
  keeps rewritten_once rewritten_at_most_once (_srpm w d) b l.
Proof.
  apply srpm_keeps; intros;
    eauto using rewritten_once_weaken, rewritten_once_frame,
      rewritten_once_rewrite, rewritten_once_tgz.
  apply rewritten_once_event; assumption.
Qed.

Lemma rewritten_once_rpm w b l :
  keeps rewritten_once rewritten_at_most_once (_rpm w) b l.
Proof.
  apply rpm_keeps; intros;
    eauto using rewritten_once_weaken, rewritten_once_frame,
      rewritten_once_rewrite, rewritten_once_tgz.
  apply rewritten_once_event; assumption.
Qed.

Lemma rewritten_once_koji_release w b l :
  keeps rewritten_once rewritten_at_most_once (_koji_release w) b l.
Proof.
  apply koji_release_keeps; intros;
    eauto using rewritten_once_weaken, rewritten_once_frame,
      rewritten_once_rewrite, rewritten_once_tgz.
  apply rewritten_once_event; assumption.
Qed.

Lemma rewritten_after {A} (m : M A) (b : builder) l :
  keeps rewritten_once rewritten_at_most_once m b l ->
  (forall a0 l0, keeps (grown a0 l0) (grown a0 l0) m b l) ->
  rewritten_once b l ->
  count is_specfile_rewrite (m b l).2 <= 1 /\
  (test b = false -> count is_specfile_rewrite (m b l).2 = 0).
Proof.
  intros Hk Hg HI. apply grown_after in Hg as [Hf _].
  specialize (Hk HI).
  assert (H : rewritten_at_most_once (m b l).1.2 (m b l).2).
  { destruct (m b l) as [[[a|e] b1] l1]; simpl;
      [now apply rewritten_once_weaken|exact Hk]. }
  destruct H as [H1 H2]. split; [exact H1|]. intros Ht. apply H2.
  change (test (fixed (m b l).1.2) = false). now rewrite Hf.
Qed.

(** A plain [Builder] that has not rewritten its spec file yet calls the
    helper at most once, and not at all outside a test build, in a whole
    Koji release, however many tags it builds for, and in a source build
    followed by a full build, whether they return or exit. *)
Theorem builder_rewrites_once_per_release w dist_arg (b : builder) l :
  cls b = Builder ->
  ran_setup_test_specfile b = false ->
  count is_specfile_rewrite l = 0 ->
  let after_release := _koji_release w b l in
  let after_builds := (_srpm w dist_arg ;; _rpm w) b l in
  (count is_specfile_rewrite after_release.2 <= 1 /\
   (test b = false -> count is_specfile_rewrite after_release.2 = 0)) /\
  (count is_specfile_rewrite after_builds.2 <= 1 /\
   (test b = false -> count is_specfile_rewrite after_builds.2 = 0)).
Proof.
  intros Hc Hf Hn after_release after_builds.
  assert (HI : rewritten_once b l).
  { unfold rewritten_once. rewrite Hn. repeat split; auto. }
  split.
  - apply rewritten_after; [apply rewritten_once_koji_release| |exact HI].
    intros a0 l0. apply grown_koji_release.
  - apply rewritten_after; [| |exact HI].
    + apply keeps_bind; [apply rewritten_once_srpm|].
      intros _ b1 l1 _. apply rewritten_once_rpm.
    + intros a0 l0. apply keeps_bind; [apply grown_srpm|].
      intros _ b1 l1 _. apply grown_rpm.
Qed.

Lemma builder_rewrites_once_per_release_witness :
  let o := options_example None true false false false true in
  let b0 :=
    builder_example Builder "pkg" o
      (koji_config [("dist-f12", tag_section ".fc12" []);
                    ("dist-el5", tag_section ".el5" [])]) in
  let out := _koji_release quiet_world b0 [] in
  cls b0 = Builder /\ test b0 = true /\
  count is_specfile_rewrite out.2 <= 1 /\
  count is_submit_cmd out.2 = 2.
Proof.
  intros o b0 out.
  assert (Hc : cls b0 = Builder) by reflexivity.
  assert (Hf : ran_setup_test_specfile b0 = false) by reflexivity.
  assert (Hn : count is_specfile_rewrite [] = 0) by reflexivity.
  split; [exact Hc|]. split; [reflexivity|]. split.
  - exact (proj1 (proj1 (builder_rewrites_once_per_release quiet_world None b0 []
                           Hc Hf Hn))).
  - vm_compute. reflexivity.
Defined.

(** ** Builds that return, and a Koji release tag by tag *)

(** The common opening of [_srpm] and [_rpm], when it returns: what
    follows runs from a state with the same fixed attributes and a longer
    log. *)
Lemma opening_ok w (k : M unit) b l r b' l' :
  (_create_build_dirs ;;
   b <- self ;;
   when (negb (ran_tgz b)) (_ <- tgz w ;; ret tt) ;;
   when (test b) (_setup_test_specfile w) ;;
   k) b l = (Ok r, b', l') ->
  exists b1 l1,
    fixed b1 = fixed b /\ l `prefix_of` l1 /\ k b1 l1 = (Ok r, b', l').
Proof.
  intros H.
  pose proof (grown_start b l) as G.
  apply bind_ok in H as (? & b1 & l1 & H1 & H).
  assert (G1 : grown (fixed b) l b1 l1).
  { refine (keeps_ok _ (grown (fixed b) l) _ _ _ _ _ _ _ G H1).
    apply create_build_dirs_keeps; intros; eauto using grown_frame, grown_event. }
  apply bind_ok in H as (b2 & ? & ? & Hs & H). injection Hs as <- <- <-.
  apply bind_ok in H as (? & b3 & l3 & H3 & H).
  assert (G3 : grown (fixed b) l b3 l3).
  { refine (keeps_ok _ (grown (fixed b) l) _ _ _ _ _ _ _ G1 H3).
    apply keeps_when. intros _.
    apply keeps_bind; [apply grown_tgz|intros; apply keeps_ret]. }
  apply bind_ok in H as (? & b4 & l4 & H4 & H).
  assert (G4 : grown (fixed b) l b4 l4).
  { refine (keeps_ok _ (grown (fixed b) l) _ _ _ _ _ _ _ G3 H4).
    apply keeps_when. intros _. apply grown_rewrite. }
  destruct G4 as [Gf Gl]. now exists b4, l4.
Qed.

(** A source package build that returns has run rpmbuild last, with the
    [dist] of the builder when it has one and the one it was given
    otherwise, and has recorded the first file rpmbuild wrote. *)
Lemma srpm_ok w d b l b' l' :
  _srpm w d b l = (Ok tt, b', l') ->
  exists l1 output first rest,
    let cmd := srpm_cmd b' (srpm_define_dist b' d) in
    l `prefix_of` l1 /\
    l' = l1 ++ [Shell In_srpm cmd] /\
    run_command w l1 cmd = Some output /\
    _find_wrote_in_rpmbuild_output output = Ok (first :: rest) /\
    srpm_location b' = Some first /\
    fixed b' = fixed b.
Proof.
  intros H. unfold _srpm in H.
  apply opening_ok in H as (b4 & l4 & Gf & Gl & H).
  apply bind_ok in H as (b5 & ? & ? & Hs & H). injection Hs as <- <- <-.
  apply bind_ok in H as (output & b6 & l6 & Hsh & H).
  unfold shell in Hsh.
  destruct (run_command w l4 _) as [out|] eqn:Hrun; [|discriminate].
  injection Hsh as <- <- <-.
  apply bind_ok in H as (files & b7 & l7 & Hl & H).
  destruct (_find_wrote_in_rpmbuild_output out) as [fw|e] eqn:Hfw;
    [|discriminate].
  injection Hl as <- <- <-.
  destruct fw as [|first rest]; [discriminate|].
  unfold bind, assign in H. injection H as <- <-.
  exists l4, out, first, rest. cbv zeta.
  split; [exact Gl|]. split; [reflexivity|]. split; [exact Hrun|].
  split; [exact Hfw|]. split; [reflexivity|exact Gf].
Qed.

Lemma rpm_files_written_ok output files :
  rpm_files_written output = Ok files ->
  files = wrote_paths output /\ 2 <= length files.
Proof.
  unfold rpm_files_written. rewrite find_wrote_paths.
  destruct (wrote_paths output) as [|p ps]; [discriminate|].
  destruct (length (p :: ps) <? 2)%nat eqn:Hlen; [discriminate|].
  intros H. injection H as <-. apply Nat.ltb_ge in Hlen. now split.
Qed.

(** A full build that returns has run rpmbuild and read at least two
    files off its output. *)
Lemma rpm_ok w b l b' l' :
  _rpm w b l = (Ok tt, b', l') ->
  exists (b1 : builder) l1 output,
    let define_dist :=
      if truthy (dist b1) then define_dist_of (Py.str_of_opt (dist b1)) else "" in
    fixed b1 = fixed b /\ l `prefix_of` l1 /\
    run_command w l1 (rpm_cmd b1 define_dist) = Some output /\
    rpm_files_written output = Ok (wrote_paths output) /\
    2 <= length (wrote_paths output).
Proof.
  intros H. unfold _rpm in H.
  apply opening_ok in H as (b4 & l4 & Gf & Gl & H).
  apply bind_ok in H as (b5 & ? & ? & Hs & H). injection Hs as <- <- <-.
  apply bind_ok in H as (output & b6 & l6 & Hsh & H).
  unfold shell in Hsh.
  destruct (run_command w l4 _) as [out|] eqn:Hrun; [|discriminate].
  injection Hsh as <- <- <-.
  apply bind_ok in H as (files & b7 & l7 & Hl & _).
  destruct (rpm_files_written out) as [fw|e] eqn:Hfw; [|discriminate].
  injection Hl as <- <- <-.
  apply rpm_files_written_ok in Hfw as Hok. destruct Hok as [-> Hlen].
  exists b4, l4, out. cbv zeta.
  split; [exact Gf|]. split; [exact Gl|]. split; [exact Hrun|].
  split; [exact Hfw|exact Hlen].
Qed.

Lemma submit_build_ok w koji_opts tag b l r b' l' :
  _submit_build w "koji" koji_opts tag b l = (Ok r, b', l') ->
  b' = b /\
  l' = l ++ [submission b koji_opts tag (Py.str_of_opt (srpm_location b))].
Proof.
  unfold _submit_build, submission, bind, self, print_dry_run_warning, shell, ret.
  destruct (dry_run b).
  - intros H. now injection H as <- <- <-.
  - destruct (run_command w l _); [|discriminate].
    intros H. now injection H as <- <- <-.
Qed.

(** C10, as the code has it. When the loop body of a Koji release returns
    after doing something for a tag, it has just built a source package,
    with the builder's own [dist] when the caller gave one and with the
    [disttag] of the tag otherwise, and what it submits for the tag right
    after is the first file that very build wrote, which is also the
    recorded source package location. *)
Theorem koji_submits_fresh_srpm w koji_opts tag b l b' l' :
  koji_tag_body w koji_opts tag b l = (Ok tt, b', l') ->
  l' <> l ->
  exists disttag l1 output first rest,
    let cmd := srpm_cmd b' (srpm_define_dist b' (Some disttag)) in
    config_get (config b) tag "disttag" = Ok disttag /\
    l `prefix_of` l1 /\
    l' = l1 ++ [Shell In_srpm cmd; submission b' koji_opts tag first] /\
    run_command w l1 cmd = Some output /\
    _find_wrote_in_rpmbuild_output output = Ok (first :: rest) /\
    srpm_location b' = Some first.
Proof.
  intros H Hne.
  assert (Hbuild : forall d,
            config_get (config b) tag "disttag" = Ok d ->
            koji_build_and_submit w koji_opts tag d b l = (Ok tt, b', l') ->
            exists disttag l1 output first rest,
              let cmd := srpm_cmd b' (srpm_define_dist b' (Some disttag)) in
              config_get (config b) tag "disttag" = Ok disttag /\
              l `prefix_of` l1 /\
              l' = l1 ++ [Shell In_srpm cmd; submission b' koji_opts tag first] /\
              run_command w l1 cmd = Some output /\
              _find_wrote_in_rpmbuild_output output = Ok (first :: rest) /\
              srpm_location b' = Some first).
  { intros d Hd Hb. unfold koji_build_and_submit in Hb.
    apply bind_ok in Hb as ([] & b1 & l1 & Hs & Hb).
    apply srpm_ok in Hs as (l2 & out & first & rest & Hp & Hl & Hr & Hf & Hloc & _).
    apply submit_build_ok in Hb as [-> ->].
    exists d, l2, out, first, rest. cbv zeta in *.
    split; [exact Hd|]. split; [exact Hp|]. split.
    { rewrite Hl, Hloc, <- app_assoc. reflexivity. }
    split; [exact Hr|]. split; [exact Hf|exact Hloc]. }
  unfold koji_tag_body in H. rewrite bind_run in H. cbn [self] in H.
  destruct (negb (bool_decide (only_tags b = [])) && negb (Py.mem tag (only_tags b))).
  { injection H as <- <-. congruence. }
  rewrite bind_run in H.
  destruct (config_get (config b) tag "disttag") as [d|e] eqn:Hd;
    [|discriminate].
  cbn [lift ret] in H.
  destruct (has_option (config b) tag "whitelist").
  - destruct (negb (is_whitelisted b tag)).
    + injection H as <- <-. congruence.
    + now apply (Hbuild d).
  - destruct (is_blacklisted b tag).
    + injection H as <- <-. congruence.
    + now apply (Hbuild d).
Qed.

(** A release to one tag, no [dist] given by the caller: the source
    package is built with the tag's [.fc12] and that package is submitted. *)
Lemma koji_submits_fresh_srpm_witness :
  let o := options_example None false false false false true in
  let b0 :=
    builder_example Builder "pkg" o
      (koji_config [("dist-f12", tag_section ".fc12" [])]) in
  let out := koji_tag_body quiet_world DEFAULT_KOJI_OPTS "dist-f12" b0 [] in
  out = (Ok tt, out.1.2, out.2) /\ out.2 <> [] /\
  exists disttag l1 output first rest,
    let cmd := srpm_cmd out.1.2 (srpm_define_dist out.1.2 (Some disttag)) in
    config_get (config b0) "dist-f12" "disttag" = Ok disttag /\
    [] `prefix_of` l1 /\
    out.2 = l1 ++ [Shell In_srpm cmd;
                   submission out.1.2 DEFAULT_KOJI_OPTS "dist-f12" first] /\
    run_command quiet_world l1 cmd = Some output /\
    _find_wrote_in_rpmbuild_output output = Ok (first :: rest) /\
    srpm_location out.1.2 = Some first.
Proof.
  intros o b0 out.
  assert (H1 : out = (Ok tt, out.1.2, out.2)) by (vm_compute; reflexivity).
  assert (H2 : out.2 <> []) by (vm_compute; discriminate).
  split; [exact H1|]. split; [exact H2|].
  exact (koji_submits_fresh_srpm quiet_world DEFAULT_KOJI_OPTS "dist-f12"
           b0 [] out.1.2 out.2 H1 H2).
Defined.

(** C10, as stated, fails: when the caller gave [--dist .el5], the source
    package built for the tag [dist-f12], whose [disttag] is [.fc12], is
    built with [.el5], and no build with [.fc12] is made. *)
Lemma koji_dist_option_overrides_disttag :
  let o := options_example (Some ".el5") false false false false true in
  let b0 :=
    builder_example Builder "pkg" o
      (koji_config [("dist-f12", tag_section ".fc12" [])]) in
  let out := koji_tag_body quiet_world DEFAULT_KOJI_OPTS "dist-f12" b0 [] in
  out.1.1 = Ok tt /\
  config_get (config b0) "dist-f12" "disttag" = Ok ".fc12" /\
  (Shell In_srpm (srpm_cmd out.1.2 (define_dist_of ".el5")) ∈ out.2) /\
  (Shell In_srpm (srpm_cmd out.1.2 (define_dist_of ".fc12")) ∉ out.2) /\
  last out.2
  = Some (Shell In_submit_build
            "koji build --nowait dist-f12 /tmp/tito/pkg-1.0-1.el5.src.rpm").
Proof.
  intros o b0 out.
  split; [vm_compute; reflexivity|]. split; [vm_compute; reflexivity|].
  split; [|split].
  - apply (bool_decide_eq_true_1 _). vm_compute. reflexivity.
  - apply (bool_decide_eq_false_1 _). vm_compute. reflexivity.
  - vm_compute. reflexivity.
Qed.

(** ** The decision taken for a Koji tag *)






(** ** What rpmbuild wrote *)

(** C8. The parse returns, in order, what follows [Wrote: ] on the lines
    that begin with it, and exits when there is no such line; the two-line
    output of the example yields its two paths; the check of a full build
    exits as soon as fewer than two such lines are found, and a full build
    that returns has read at least two off the output of its rpmbuild
    command. *)
Theorem wrote_lines_parsed :
  (forall output,
     _find_wrote_in_rpmbuild_output output
     = if bool_decide (wrote_paths output = []) then Err (ErrorOut no_wrote_lines)
       else Ok (wrote_paths output)) /\
  _find_wrote_in_rpmbuild_output
    ("Wrote: /a/b.src.rpm" +:+ nl +:+ "Wrote: /a/b.rpm" +:+ nl)
  = Ok ["/a/b.src.rpm"; "/a/b.rpm"] /\
  (forall output,
     List.filter is_wrote_line (Py.split LF output) = [] ->
     _find_wrote_in_rpmbuild_output output = Err (ErrorOut no_wrote_lines)) /\
  (forall output,
     length (List.filter is_wrote_line (Py.split LF output)) < 2 ->
     exists msg, rpm_files_written output = Err (ErrorOut msg)) /\
  (forall output,
     2 <= length (List.filter is_wrote_line (Py.split LF output)) ->
     rpm_files_written output = Ok (wrote_paths output)) /\
  (forall w b l b' l',
     _rpm w b l = (Ok tt, b', l') ->
     exists (b1 : builder) l1 output,
       let define_dist :=
         if truthy (dist b1) then define_dist_of (Py.str_of_opt (dist b1))
         else "" in
       run_command w l1 (rpm_cmd b1 define_dist) = Some output /\
       2 <= length (List.filter is_wrote_line (Py.split LF output))).
Proof.
  split; [|split; [|split; [|split; [|split]]]].
  - intros output. rewrite find_wrote_paths.
    destruct (wrote_paths output); reflexivity.
  - reflexivity.
  - intros output H. rewrite find_wrote_paths. unfold wrote_paths.
    now rewrite H.
  - intros output H. unfold rpm_files_written. rewrite find_wrote_paths.
    assert (Hlen : length (wrote_paths output) < 2)
      by (unfold wrote_paths; now rewrite length_map).
    destruct (wrote_paths output) as [|p ps] eqn:Hp; [now eexists|].
    destruct ps as [|q ps]; [now eexists|]. simpl in Hlen. lia.
  - intros output H. unfold rpm_files_written. rewrite find_wrote_paths.
    assert (Hlen : 2 <= length (wrote_paths output))
      by (unfold wrote_paths; now rewrite length_map).
    destruct (wrote_paths output) as [|p [|q ps]] eqn:Hp; simpl in Hlen; try lia.
    reflexivity.
  - intros w b l b' l' H.
    apply rpm_ok in H as (b1 & l1 & output & _ & _ & Hrun & _ & Hlen).
    exists b1, l1, output. split; [exact Hrun|].
    unfold wrote_paths in Hlen. now rewrite length_map in Hlen.
Qed.

(** An output without a [Wrote: ] line, one with a single such line, the
    two-line output of the example, and a full build that returns. *)
Lemma wrote_lines_parsed_witness :
  let b0 :=
    builder_example Builder "pkg"
      (options_example None false false false true false) ∅ in
  let out := _rpm quiet_world b0 [] in
  _find_wrote_in_rpmbuild_output ("error: Bad source" +:+ nl)
    = Err (ErrorOut no_wrote_lines) /\
  (exists msg,
     rpm_files_written ("Wrote: /a/b.src.rpm" +:+ nl) = Err (ErrorOut msg)) /\
  rpm_files_written ("Wrote: /a/b.src.rpm" +:+ nl +:+ "Wrote: /a/b.rpm" +:+ nl)
    = Ok ["/a/b.src.rpm"; "/a/b.rpm"] /\
  out = (Ok tt, out.1.2, out.2) /\
  exists (b1 : builder) l1 output,
    run_command quiet_world l1
      (rpm_cmd b1 (if truthy (dist b1) then define_dist_of (Py.str_of_opt (dist b1))
                   else "")) = Some output /\
    2 <= length (List.filter is_wrote_line (Py.split LF output)).
Proof.
  intros b0 out.
  destruct wrote_lines_parsed as (_ & _ & H0 & H1 & H2 & H3).
  split; [|split; [|split; [|split]]].
  - apply H0. reflexivity.
  - apply H1. vm_compute. lia.
  - rewrite H2; [reflexivity|]. vm_compute. lia.
  - vm_compute. reflexivity.
  - apply (H3 quiet_world b0 [] out.1.2 out.2). vm_compute. reflexivity.
Defined.

(** ** The insertion points, read off the lines *)

Lemma last_index_Some {A} (p : A -> bool) l k :
  last_index p l = Some k <->
  exists x, l !! k = Some x /\ p x = true /\
            Forall (fun y => p y = false) (drop (S k) l).
Proof.
  revert k. induction l as [|x l IH]; intros k; simpl.
  - split; [discriminate|]. now intros (y & H & _).
  - destruct (last_index p l) as [j|] eqn:Hl.
    + split.
      * intros [= <-]. apply IH. reflexivity.
      * intros (y & Hy & Hp & Hall). destruct k as [|k].
        { simpl in *. rewrite drop_0 in Hall.
          destruct (proj1 (IH j) eq_refl) as (z & Hz & Hpz & _).
          apply list_elem_of_lookup_2 in Hz.
          rewrite Forall_forall in Hall. specialize (Hall z Hz). congruence. }
        f_equal. assert (H : Some j = Some k); [|congruence].
        apply IH. now exists y.
    + assert (Hnone : Forall (fun y => p y = false) l).
      { apply Forall_forall. intros y Hy. destruct (p y) eqn:Hp; [|reflexivity].
        exfalso. clear IH. induction l as [|z l IHl]; [inversion Hy|].
        simpl in Hl. destruct (last_index p l); [discriminate|].
        destruct (p z) eqn:Hz; [discriminate|].
        apply elem_of_cons in Hy as [->|Hy]; [congruence|]. now apply IHl. }
      destruct (p x) eqn:Hx; split.
      * intros [= <-]. exists x. simpl. rewrite drop_0. now repeat split.
      * intros (y & Hy & Hp & Hall). destruct k as [|k]; [reflexivity|].
        simpl in Hy. apply list_elem_of_lookup_2 in Hy.
        rewrite Forall_forall in Hnone. specialize (Hnone y Hy). congruence.
      * discriminate.
      * intros (y & Hy & Hp & Hall). destruct k as [|k]; simpl in Hy.
        { congruence. }
        apply list_elem_of_lookup_2 in Hy.
        rewrite Forall_forall in Hnone. specialize (Hnone y Hy). congruence.
Qed.

Lemma last_index_lt {A} (p : A -> bool) l k :
  last_index p l = Some k -> k < length l.
Proof.
  intros H. apply last_index_Some in H as (x & Hx & _).
  now apply lookup_lt_Some in Hx.
Qed.

Lemma scan_insert_last lines st :
  patch_insert_index (fold_left scan_line lines st)
  = match last_index anchor_line lines with
    | Some k => array_index st + k + 1
    | None => patch_insert_index st
    end.
Proof.
  revert st. induction lines as [|x lines IH]; intros st; simpl; [reflexivity|].
  rewrite IH, scan_line_array_index, scan_line_insert_index.
  destruct (last_index anchor_line lines); [lia|].
  destruct (anchor_line x); [lia|reflexivity].
Qed.

Lemma scan_apply_last lines st :
  patch_apply_index (fold_left scan_line lines st)
  = match last_index marker_line lines with
    | Some k => array_index st + k + 2
    | None => patch_apply_index st
    end.
Proof.
  revert st. induction lines as [|x lines IH]; intros st; simpl; [reflexivity|].
  rewrite IH, scan_line_array_index, scan_line_apply_index.
  destruct (last_index marker_line lines); [lia|].
  destruct (marker_line x); [lia|reflexivity].
Qed.

Lemma scan_number_last lines st :
  patch_number (fold_left scan_line lines st)
  = match last_index patch_directive lines with
    | Some k =>
        match lines !! k ≫= patch_pattern with
        | Some ds => (Py.int ds + 1)%N
        | None => 0%N
        end
    | None => patch_number st
    end.
Proof.
  revert st. induction lines as [|x lines IH]; intros st; simpl; [reflexivity|].
  rewrite IH, scan_line_patch_number.
  destruct (last_index patch_directive lines); [reflexivity|].
  unfold patch_directive.
  destruct (patch_pattern x) as [ds|] eqn:Hx; simpl; [|reflexivity].
  now rewrite Hx.
Qed.

Lemma patch_upstream_found (lines : list string) i a :
  last_index anchor_line lines = Some i ->
  last_index marker_line lines = Some a ->
  _patch_upstream lines = Ok (number_after_last_patch lines, S i, S (S a), lines).
Proof.
  intros Hi Ha. unfold _patch_upstream, scan_lines, number_after_last_patch.
  rewrite scan_insert_last, scan_apply_last, scan_number_last, Hi, Ha. simpl.
  replace (i + 1) with (S i) by lia. replace (a + 2) with (S (S a)) by lia.
  reflexivity.
Qed.

(** What [_patch_upstream] returns, for any lines: the index one past
    the last [SourceN:] or [PatchN:] line, the index two past the last line
    that starts with [%prep] or [%setup], the number after that of the last
    [PatchN:] line, and the lines as they were; its error when one of the two
    kinds of line is missing. *)
Theorem patch_upstream_points (lines : list string) :
  _patch_upstream lines
  = match last_index anchor_line lines, last_index marker_line lines with
    | Some i, Some a =>
        Ok (number_after_last_patch lines, S i, S (S a), lines)
    | _, _ => Err (ErrorOut no_insertion_point)
    end.
Proof.
  unfold _patch_upstream, scan_lines, number_after_last_patch.
  rewrite scan_insert_last, scan_apply_last, scan_number_last. simpl.
  destruct (last_index anchor_line lines) as [i|]; [|reflexivity].
  destruct (last_index marker_line lines) as [a|].
  - replace (i + 1) with (S i) by lia. replace (a + 2) with (S (S a)) by lia.
    reflexivity.
  - replace (i + 1) with (S i) by lia. reflexivity.
Qed.

Lemma last_index_None {A} (p : A -> bool) l :
  last_index p l = None <-> Forall (fun y => p y = false) l.
Proof.
  induction l as [|x l IH]; simpl; [now split|].
  destruct (last_index p l) as [k|].
  - split; [discriminate|]. intros H. apply Forall_cons in H as [_ H].
    apply IH in H. discriminate.
  - destruct (p x) eqn:Hx; split; try discriminate.
    + intros H. apply Forall_cons in H as [H _]. congruence.
    + intros _. constructor; [exact Hx|]. now apply IH.
    + reflexivity.
Qed.

Lemma last_index_app {A} (p : A -> bool) l1 l2 :
  last_index p (l1 ++ l2)
  = match last_index p l2 with
    | Some k => Some (length l1 + k)
    | None => last_index p l1
    end.
Proof.
  induction l1 as [|x l1 IH]; simpl.
  - now destruct (last_index p l2).
  - rewrite IH. now destruct (last_index p l2).
Qed.

(** ** The patched spec file *)

Lemma py_insert_length {A} i (x : A) l : length (py_insert i x l) = S (length l).
Proof.
  unfold py_insert. rewrite length_app. simpl.
  rewrite <- (take_drop i l) at 3. rewrite length_app. lia.
Qed.

Lemma py_insert_sublist {A} i (x : A) l : l `sublist_of` py_insert i x l.
Proof.
  unfold py_insert. rewrite <- (take_drop i l) at 1.
  apply sublist_app; [reflexivity|]. now apply sublist_cons.
Qed.

Lemma py_insert_elem {A} i (x y : A) l :
  y ∈ py_insert i x l <-> y = x \/ y ∈ l.
Proof.
  unfold py_insert. rewrite elem_of_app, elem_of_cons.
  rewrite <- (take_drop i l) at 3. rewrite elem_of_app. tauto.
Qed.

(** Whatever the two indices, also past the end of the list, the two
    insertions of [patch_upstream] add two lines and neither drop nor
    reorder a line that was there. *)
Theorem patch_insertion_keeps_lines (lines : list string) n i a f :
  let out := insert_patch_lines lines n i a f in
  length out = length lines + 2 /\
  lines `sublist_of` out /\
  (forall line,
     line ∈ out <-> line = apply_line n \/ line = patch_line n f \/ line ∈ lines).
Proof.
  unfold insert_patch_lines. cbv zeta. split; [|split].
  - rewrite !py_insert_length. lia.
  - etransitivity; apply py_insert_sublist.
  - intros line. now rewrite !py_insert_elem.
Qed.

Lemma take_take_drop_split {A} (l : list A) i a :
  i < a ->
  l = take (S i) l ++ drop (S i) (take (S a) l) ++ drop (S a) l.
Proof.
  intros Hia.
  rewrite <- (take_drop (S a) l) at 1.
  rewrite <- (take_drop (S i) (take (S a) l)) at 1.
  rewrite take_take, <- app_assoc. do 2 f_equal. lia.
Qed.

Lemma insert_after_anchors (lines : list string) n i a f :
  i < a -> a < length lines ->
  insert_patch_lines lines n (S i) (S (S a)) f
  = take (S i) lines ++ patch_line n f
      :: drop (S i) (take (S a) lines) ++ apply_line n :: drop (S a) lines.
Proof.
  intros Hia Hlen.
  pose proof (take_take_drop_split lines i a Hia) as Hl.
  set (pre := take (S i) lines) in *.
  set (mid := drop (S i) (take (S a) lines)) in *.
  set (post := drop (S a) lines) in *.
  assert (Hp : length pre = S i) by (unfold pre; rewrite length_take; lia).
  assert (Hm : length pre + length mid + 1 = S (S a))
    by (unfold pre, mid; rewrite length_drop, !length_take; lia).
  rewrite <- (insert_patch_lines_split pre mid post n f).
  now rewrite Hm, Hp, <- Hl.
Qed.

(** The usual layout: the last [SourceN:] or [PatchN:] line comes before
    the last [%prep] or [%setup] line.  The new [PatchN:] line goes right
    after the first of the two and the new [%patchN] line right after the
    second. *)
Theorem patch_upstream_lines_after_anchors f (lines : list string) i a :
  last_index anchor_line lines = Some i ->
  last_index marker_line lines = Some a ->
  i < a ->
  let n := number_after_last_patch lines in
  patch_upstream_lines f lines
  = Ok (take (S i) lines ++ patch_line n f
          :: drop (S i) (take (S a) lines) ++ apply_line n :: drop (S a) lines).
Proof.
  intros Hi Ha Hia n. unfold patch_upstream_lines.
  rewrite (patch_upstream_found _ _ _ Hi Ha). f_equal.
  apply insert_after_anchors; [exact Hia|].
  exact (last_index_lt _ _ _ Ha).
Qed.

(** The other layout: the last [%prep] or [%setup] line comes before the
    last [SourceN:] or [PatchN:] line.  The new [%patchN] line then goes
    after the line that follows the marker, one line lower than in the
    usual layout. *)
Theorem patch_upstream_lines_before_anchors f (lines : list string) i a :
  last_index anchor_line lines = Some i ->
  last_index marker_line lines = Some a ->
  a < i ->
  let n := number_after_last_patch lines in
  patch_upstream_lines f lines
  = Ok (take (S (S a)) lines ++ apply_line n
          :: drop (S (S a)) (take (S i) lines) ++ patch_line n f
          :: drop (S i) lines).
Proof.
  intros Hi Ha Hai n. unfold patch_upstream_lines.
  rewrite (patch_upstream_found _ _ _ Hi Ha). f_equal.
  pose proof (last_index_lt _ _ _ Hi) as Hlen.
  unfold insert_patch_lines, py_insert.
  rewrite take_app_le by (rewrite length_take; lia).
  rewrite drop_app_le by (rewrite length_take; lia).
  rewrite take_take. f_equal. f_equal. lia.
Qed.

(** ** Patch numbers written and read back *)

Lemma uint_value_pos d p :
  uint_value d (N.pos p) = N.pos (Pos.of_uint_acc d p).
Proof.
  unfold uint_value. revert p.
  induction d as [|d IH|d IH|d IH|d IH|d IH|d IH|d IH|d IH|d IH|d IH];
    intros p; simpl; [reflexivity|..];
    unfold Py.digit_val; simpl; rewrite <- IH; f_equal; lia.
Qed.

Lemma uint_value_zero d : uint_value d 0 = N.of_uint d.
Proof.
  unfold uint_value, N.of_uint.
  induction d as [|d IH|d IH|d IH|d IH|d IH|d IH|d IH|d IH|d IH|d IH];
    simpl; [reflexivity|exact IH|..];
    unfold Py.digit_val; simpl; apply uint_value_pos.
Qed.

(** [int(str(n))] is [n]. *)
Lemma int_str_of_N n : Py.int (Py.str_of_N n) = n.
Proof.
  unfold Py.int, Py.str_of_N, NilZero.string_of_uint.
  destruct (N.to_uint n) eqn:Hn;
    try (rewrite <- Hn; fold (uint_value (N.to_uint n) 0);
         rewrite uint_value_zero; apply DecimalN.Unsigned.of_to).
  rewrite <- (DecimalN.Unsigned.of_to n), Hn. reflexivity.
Qed.

Lemma span_digits_uint d rest :
  span_digits (NilEmpty.string_of_uint d +:+ rest)
  = (NilEmpty.string_of_uint d +:+ (span_digits rest).1, (span_digits rest).2).
Proof.
  induction d as [|d IH|d IH|d IH|d IH|d IH|d IH|d IH|d IH|d IH|d IH];
    [change (NilEmpty.string_of_uint Decimal.Nil +:+ rest) with rest;
     destruct (span_digits rest); reflexivity|..];
    cbn [NilEmpty.string_of_uint];
    match goal with
    | |- context [String ?c ?s +:+ rest] =>
        change (String c s +:+ rest) with (String c (s +:+ rest))
    end;
    cbn [span_digits]; rewrite IH; reflexivity.
Qed.

Lemma str_app_nil_r s : s +:+ "" = s.
Proof.
  induction s as [|c s IH]; [reflexivity|].
  change (String c s +:+ "") with (String c (s +:+ "")). now rewrite IH.
Qed.

Lemma str_of_N_digits n :
  exists d, d <> Decimal.Nil /\ Py.str_of_N n = NilEmpty.string_of_uint d.
Proof.
  unfold Py.str_of_N, NilZero.string_of_uint.
  destruct (N.to_uint n) eqn:Hn;
    try (eexists; split; [|reflexivity]; discriminate).
  exists (Decimal.D0 Decimal.Nil). split; [discriminate|reflexivity].
Qed.

Lemma patch_pattern_patch_line n f :
  patch_pattern (patch_line n f) = Some (Py.str_of_N n).
Proof.
  unfold patch_pattern, match_directive, patch_line.
  change ("Patch" +:+ ?s)
    with (String "P" (String "a" (String "t" (String "c" (String "h" s))))).
  cbn [Py.startswith String.prefix Py.drop_str String.length].
  repeat (destruct (Ascii.ascii_dec _ _) as [_|Hne]; [|congruence]).
  destruct (str_of_N_digits n) as (d & Hd & ->).
  rewrite span_digits_uint.
  change (": " +:+ ?s) with (String ":" (String " " s)).
  cbn [span_digits]. cbn [fst snd]. rewrite str_app_nil_r.
  destruct d; try congruence; reflexivity.
Qed.

(** The [PatchN:] line that [patch_upstream] writes is read back by the
    pattern of [_patch_upstream] with the number it was written with, and
    neither of the two lines written passes for a [%prep] or [%setup] line,
    nor the [%patchN] line for a [SourceN:] or [PatchN:] line. *)
Theorem patch_line_read_back n f :
  (exists ds, patch_pattern (patch_line n f) = Some ds /\ Py.int ds = n) /\
  anchor_line (patch_line n f) = true /\
  marker_line (patch_line n f) = false /\
  anchor_line (apply_line n) = false /\
  marker_line (apply_line n) = false.
Proof.
  pose proof (patch_pattern_patch_line n f) as Hp.
  split; [|split; [|split; [|split]]].
  - exists (Py.str_of_N n). split; [exact Hp|apply int_str_of_N].
  - unfold anchor_line. rewrite Hp. reflexivity.
  - reflexivity.
  - reflexivity.
  - reflexivity.
Qed.

Lemma not_anchor_not_patch line :
  anchor_line line = false -> patch_directive line = false.
Proof.
  unfold anchor_line, patch_directive. intros H.
  now apply orb_false_iff in H as [_ H].
Qed.

Lemma take_drop_around {A} (pre mid post : list A) (p x : A) :
  let out := pre ++ p :: mid ++ x :: post in
  take (S (length pre)) out = pre ++ [p] /\
  drop (S (length pre)) (take (S (length pre + length mid)) out) = mid /\
  drop (S (length pre + length mid)) out = x :: post.
Proof.
  intros out.
  assert (H1 : out = (pre ++ [p]) ++ mid ++ x :: post)
    by (unfold out; rewrite <- app_assoc; reflexivity).
  assert (H2 : out = ((pre ++ [p]) ++ mid) ++ x :: post)
    by (rewrite H1, <- !app_assoc; reflexivity).
  assert (L1 : length (pre ++ [p]) = S (length pre))
    by (rewrite length_app; simpl; lia).
  assert (L2 : length ((pre ++ [p]) ++ mid) = S (length pre + length mid))
    by (rewrite length_app, L1; lia).
  split; [|split].
  - rewrite H1, <- L1. apply take_app_length.
  - rewrite H2, <- L2, take_app_length, <- L1. apply drop_app_length.
  - rewrite H2, <- L2. apply drop_app_length.
Qed.

(** Patching a spec file that was patched before, in the usual layout:
    the scan of the patched lines comes back with the next patch number,
    the insert index right after the [PatchN:] line just written, and the
    apply index right after the marker line.  So in a file patched twice
    the second [PatchN:] line follows the first, but the second [%patchN]
    line goes between the marker line and the first [%patchN] line: the
    patches are applied in the reverse of the order they were added in. *)
Theorem patch_upstream_again f (lines out : list string) i a :
  last_index anchor_line lines = Some i ->
  last_index marker_line lines = Some a ->
  i < a ->
  patch_upstream_lines f lines = Ok out ->
  let n := number_after_last_patch lines in
  _patch_upstream out = Ok ((n + 1)%N, S (S i), S (S (S a)), out) /\
  forall f2,
    patch_upstream_lines f2 out
    = Ok (take (S i) lines ++ patch_line n f :: patch_line (n + 1) f2
            :: drop (S i) (take (S a) lines)
            ++ apply_line (n + 1) :: apply_line n :: drop (S a) lines).
Proof.
  intros Hi Ha Hia Hout n.
  unfold patch_upstream_lines in Hout.
  rewrite (patch_upstream_found _ _ _ Hi Ha) in Hout.
  rewrite (insert_after_anchors lines _ i a f Hia (last_index_lt _ _ _ Ha)) in Hout.
  injection Hout as Hout.
  fold n in Hout.
  pose proof (last_index_lt _ _ _ Ha) as Hlen.
  destruct (proj1 (last_index_Some _ _ _) Hi) as (x & Hx & Hax & Hafter).
  destruct (proj1 (last_index_Some _ _ _) Ha) as (m & Hm & Hmm & Mafter).
  pose proof (patch_pattern_patch_line n f) as Hds.
  pose proof (int_str_of_N n) as Hint.
  assert (HPa : anchor_line (patch_line n f) = true)
    by (unfold anchor_line; rewrite Hds; reflexivity).
  assert (HPm : marker_line (patch_line n f) = false) by reflexivity.
  assert (HAa : anchor_line (apply_line n) = false) by reflexivity.
  assert (HAm : marker_line (apply_line n) = false) by reflexivity.
  set (pre := take (S i) lines) in *.
  set (post := drop (S a) lines) in *.
  assert (Hpre : length pre = S i) by (unfold pre; rewrite length_take; lia).
  assert (Hmid : drop (S i) (take (S a) lines)
                 = drop (S i) (take a lines) ++ [m]).
  { rewrite (take_S_r _ _ _ Hm).
    rewrite drop_app_le by (rewrite length_take; lia). reflexivity. }
  set (mid0 := drop (S i) (take a lines)) in *.
  assert (Hmid0 : length mid0 = a - S i)
    by (unfold mid0; rewrite length_drop, length_take; lia).
  rewrite Hmid in Hout.
  assert (Hrest : drop (S i) lines = (mid0 ++ [m]) ++ post).
  { unfold post. rewrite <- Hmid.
    rewrite <- (take_drop (S a) lines) at 1.
    rewrite drop_app_le by (rewrite length_take; lia). reflexivity. }
  rewrite Hrest in Hafter. apply Forall_app in Hafter as [Hmid_a Hpost_a].
  assert (Hno_anchor : Forall (fun y => anchor_line y = false)
                         ((mid0 ++ [m]) ++ apply_line n :: post)).
  { apply Forall_app. split; [exact Hmid_a|]. now constructor. }
  assert (Hanchor : last_index anchor_line out = Some (S i)).
  { rewrite <- Hout, last_index_app. cbn [last_index].
    rewrite (proj2 (last_index_None _ _) Hno_anchor), HPa, Hpre.
    f_equal. lia. }
  assert (Hpatch : last_index patch_directive out = Some (S i)).
  { rewrite <- Hout, last_index_app. cbn [last_index].
    rewrite (proj2 (last_index_None patch_directive _)).
    - unfold patch_directive at 1. rewrite Hds. simpl. rewrite Hpre.
      f_equal. lia.
    - eapply Forall_impl; [exact Hno_anchor|]. apply not_anchor_not_patch. }
  assert (Hmarker : last_index marker_line out = Some (S a)).
  { rewrite <- Hout.
    replace (pre ++ patch_line n f :: (mid0 ++ [m]) ++ apply_line n :: post)
      with ((pre ++ patch_line n f :: mid0) ++ [m] ++ apply_line n :: post)
      by (rewrite <- !app_assoc; reflexivity).
    rewrite last_index_app.
    replace ([m] ++ apply_line n :: post) with ([m] ++ (apply_line n :: post))
      by reflexivity.
    rewrite last_index_app. cbn [last_index].
    rewrite (proj2 (last_index_None _ _) Mafter), HAm, Hmm.
    rewrite length_app. simpl. f_equal. lia. }
  assert (Hnum : number_after_last_patch out = (n + 1)%N).
  { unfold number_after_last_patch at 1. rewrite Hpatch.
    assert (Hlook : out !! S i = Some (patch_line n f)).
    { rewrite <- Hout, <- Hpre. apply list_lookup_middle. reflexivity. }
    rewrite Hlook. simpl. rewrite Hds, Hint. reflexivity. }
  split.
  { rewrite (patch_upstream_found _ _ _ Hanchor Hmarker), Hnum. reflexivity. }
  intros f2. unfold patch_upstream_lines.
  rewrite (patch_upstream_found _ _ _ Hanchor Hmarker), Hnum. f_equal.
  assert (Hlen_out : S a < length out).
  { rewrite <- Hout, length_app, Hpre. simpl.
    rewrite !length_app, Hmid0. simpl. lia. }
  rewrite (insert_after_anchors out _ (S i) (S a) f2 (proj1 (Nat.succ_lt_mono _ _) Hia)
             Hlen_out).
  rewrite Hmid.
  destruct (take_drop_around pre (mid0 ++ [m]) post (patch_line n f) (apply_line n))
    as (T1 & T2 & T3).
  cbv zeta in T1, T2, T3. rewrite Hout in T1, T2, T3.
  replace (S (length pre)) with (S (S i)) in T1, T2 by lia.
  replace (S (length pre + length (mid0 ++ [m]))) with (S (S a)) in T2, T3
    by (rewrite length_app, Hmid0; simpl; lia).
  rewrite T1, T2, T3, <- app_assoc. reflexivity.
Qed.

Lemma patch_upstream_lines_after_anchors_witness :
  last_index anchor_line spec_lines_small = Some 0 /\
  last_index marker_line spec_lines_small = Some 2 /\
  0 < 2 /\
  patch_upstream_lines "f.patch" spec_lines_small
  = Ok ["Source0: pkg-1.0.tar.gz" +:+ nl; "Patch0: f.patch" +:+ nl; "%prep" +:+ nl;
        "%setup -q" +:+ nl; "%patch0 -p1" +:+ nl; "%build" +:+ nl].
Proof.
  assert (Hi : last_index anchor_line spec_lines_small = Some 0) by reflexivity.
  assert (Ha : last_index marker_line spec_lines_small = Some 2) by reflexivity.
  assert (Hia : 0 < 2) by lia.
  split; [exact Hi|]. split; [exact Ha|]. split; [exact Hia|].
  rewrite (patch_upstream_lines_after_anchors "f.patch" spec_lines_small 0 2
             Hi Ha Hia).
  reflexivity.
Defined.

Lemma patch_upstream_lines_before_anchors_witness :
  last_index anchor_line spec_lines_prep_first = Some 2 /\
  last_index marker_line spec_lines_prep_first = Some 1 /\
  1 < 2 /\
  patch_upstream_lines "f.patch" spec_lines_prep_first
  = Ok ["%prep" +:+ nl; "%setup -q" +:+ nl; "Source0: pkg-1.0.tar.gz" +:+ nl;
        "%patch0 -p1" +:+ nl; "Patch0: f.patch" +:+ nl; "%build" +:+ nl].
Proof.
  assert (Hi : last_index anchor_line spec_lines_prep_first = Some 2)
    by reflexivity.
  assert (Ha : last_index marker_line spec_lines_prep_first = Some 1)
    by reflexivity.
  assert (Hai : 1 < 2) by lia.
  split; [exact Hi|]. split; [exact Ha|]. split; [exact Hai|].
  rewrite (patch_upstream_lines_before_anchors "f.patch" spec_lines_prep_first
             2 1 Hi Ha Hai).
  reflexivity.
Defined.

Lemma patch_upstream_again_witness :
  let out :=
    ["Source0: pkg-1.0.tar.gz" +:+ nl; "Patch0: f.patch" +:+ nl; "%prep" +:+ nl;
     "%setup -q" +:+ nl; "%patch0 -p1" +:+ nl; "%build" +:+ nl] in
  patch_upstream_lines "f.patch" spec_lines_small = Ok out /\
  _patch_upstream out = Ok (1%N, 2, 5, out) /\
  patch_upstream_lines "g.patch" out
  = Ok ["Source0: pkg-1.0.tar.gz" +:+ nl; "Patch0: f.patch" +:+ nl;
        "Patch1: g.patch" +:+ nl; "%prep" +:+ nl; "%setup -q" +:+ nl;
        "%patch1 -p1" +:+ nl; "%patch0 -p1" +:+ nl; "%build" +:+ nl].
Proof.
  intros out.
  assert (Hi : last_index anchor_line spec_lines_small = Some 0) by reflexivity.
  assert (Ha : last_index marker_line spec_lines_small = Some 2) by reflexivity.
  assert (Hia : 0 < 2) by lia.
  assert (Hout : patch_upstream_lines "f.patch" spec_lines_small = Ok out)
    by reflexivity.
  split; [exact Hout|].
  destruct (patch_upstream_again "f.patch" spec_lines_small out 0 2 Hi Ha Hia Hout)
    as [H1 H2].
  split; [exact H1|].
  rewrite (H2 "g.patch"). reflexivity.
Defined.

(** ** Paths *)



















(** ** The files to copy into a build system checkout *)

Lemma copy_it_loop exts filename acc :
  fold_left
    (fun copy_it extension =>
       if Py.endswith filename extension then true else copy_it)
    exts acc
  = acc || existsb (Py.endswith filename) exts.
Proof.
  revert acc. induction exts as [|e exts IH]; intros acc; simpl.
  - now rewrite orb_false_r.
  - rewrite IH. destruct (Py.endswith filename e), acc; reflexivity.
Qed.

Lemma list_files_step_wanted c gitcopy fs acc filename :
  list_files_step c gitcopy fs acc filename
  = if wanted_file c gitcopy fs filename
    then acc ++ [Py.path_join gitcopy filename] else acc.
Proof.
  unfold list_files_step, wanted_file, copy_it_of. rewrite copy_it_loop.
  destruct (is_dir fs _), (Py.mem filename _), (Py.endswith filename ".spec");
    try reflexivity.
Qed.

Lemma list_files_loop c gitcopy fs names acc :
  fold_left (list_files_step c gitcopy fs) names acc
  = acc ++ map (Py.path_join gitcopy) (List.filter (wanted_file c gitcopy fs) names).
Proof.
  revert acc. induction names as [|x names IH]; intros acc; simpl.
  - now rewrite app_nil_r.
  - rewrite IH, list_files_step_wanted.
    destruct (wanted_file c gitcopy fs x); [|reflexivity].
    simpl. now rewrite <- app_assoc.
Qed.

Lemma drop_str_all s : Py.drop_str (String.length s) s = "".
Proof. induction s as [|c s IH]; [reflexivity|exact IH]. Qed.

Lemma endswith_empty s : Py.endswith s "" = true.
Proof.
  unfold Py.endswith. simpl. rewrite Nat.sub_0_r, drop_str_all. reflexivity.
Qed.

Lemma list_files_to_copy_filter c spec gitcopy (fs : filesystem) :
  _list_files_to_copy c spec gitcopy fs
  = spec :: map (Py.path_join gitcopy)
              (List.filter (wanted_file c gitcopy fs) (listdir fs gitcopy)).
Proof. unfold _list_files_to_copy. now rewrite list_files_loop. Qed.

(** [_list_files_to_copy] returns the spec file first, then, in the order
    of the listing, the path of every entry of the git copy that is not a
    directory, not a protected name, not a [.spec] file, and that ends with
    one of the extensions of the class: for a [NoTgzBuilder] this last test
    lets everything through, for a [Builder] it leaves the [.patch] files. *)
Theorem list_files_to_copy_selects c spec gitcopy (fs : filesystem) :
  _list_files_to_copy c spec gitcopy fs
  = spec :: map (Py.path_join gitcopy)
              (List.filter (wanted_file c gitcopy fs) (listdir fs gitcopy)) /\
  (forall name,
     wanted_file NoTgzBuilder gitcopy fs name
     = negb (is_dir fs (Py.path_join gitcopy name))
       && negb (Py.mem name PROTECTED_BUILD_SYS_FILES)
       && negb (Py.endswith name ".spec")) /\
  (forall name,
     wanted_file Builder gitcopy fs name
     = negb (is_dir fs (Py.path_join gitcopy name))
       && negb (Py.mem name PROTECTED_BUILD_SYS_FILES)
       && negb (Py.endswith name ".spec")
       && Py.endswith name ".patch").
Proof.
  split; [|split].
  - apply list_files_to_copy_filter.
  - intros name. unfold wanted_file. cbn [cvs_copy_extensions existsb].
    rewrite endswith_empty. cbn [orb]. now rewrite andb_true_r.
  - intros name. unfold wanted_file. cbn [cvs_copy_extensions existsb].
    destruct (Py.endswith name ".spec"); simpl.
    + now rewrite !andb_false_r.
    + now rewrite orb_false_r.
Qed.

(** ** What a sync does to the files *)






Lemma sync_files_with_cp files dest (fs : filesystem) :
  _sync_files_with cp files dest fs = _sync_files files dest fs.
Proof.
  unfold _sync_files_with, _sync_files.
  assert (H : forall acc fs0,
             sync_copy_loop_with cp dest files acc fs0
             = sync_copy_loop dest files acc fs0).
  { induction files as [|f files IH]; intros acc fs0; simpl; [reflexivity|].
    destruct (cp f _ fs0); [apply IH|reflexivity]. }
  now rewrite H.
Qed.














(** ** Stages, submissions and cleaning up *)

Section KeepsStages.
Context (w : world) (I E : builder -> list event -> Prop).
Hypothesis I_E : forall b l, I b l -> E b l.
Hypothesis I_frame : forall b b' l, frame_keep b b' -> I b l -> I b' l.
Hypothesis I_event :
  forall b l e, stage_event e = true -> I b l -> I b (l ++ [e]).
Hypothesis I_submit :
  forall executable koji_opts tag b l,
    keeps I E (_submit_build w executable koji_opts tag) b l.

Lemma stage_create_build_dirs b l : keeps I E _create_build_dirs b l.
Proof. unfold _create_build_dirs. keeps_read. keeps_event I_E I_event. Qed.

Lemma stage_setup_sources b l : keeps I E (_setup_sources w) b l.
Proof.
  unfold _setup_sources.
  keeps_seq; [apply stage_create_build_dirs|].
  keeps_read.
  keeps_seq; [keeps_event I_E I_event|].
  keeps_seq; [keeps_event I_E I_event|].
  keeps_seq; [keeps_event I_E I_event|].
  keeps_seq; keeps_frame I_frame.
Qed.

Lemma stage_tgz b l : keeps I E (tgz w) b l.
Proof.
  unfold tgz. keeps_read. destruct (cls b).
  - keeps_seq; [apply stage_setup_sources|].
    keeps_read.
    keeps_seq; [keeps_event I_E I_event|].
    keeps_seq; [keeps_frame I_frame|].
    keeps_seq; [keeps_frame I_frame|].
    keeps_seq; [keeps_frame I_frame|].
    apply keeps_ret.
  - keeps_seq; [apply stage_setup_sources|].
    keeps_seq; [keeps_frame I_frame|].
    keeps_read.
    keeps_seq; [keeps_event I_E I_event|].
    keeps_seq; [keeps_frame I_frame|].
    apply keeps_ret.
Qed.

Lemma stage_setup_test_specfile b l : keeps I E (_setup_test_specfile w) b l.
Proof.
  unfold _setup_test_specfile. keeps_read. destruct (cls b).
  - destruct (test b && negb (ran_setup_test_specfile b)); [|apply keeps_ret].
    keeps_seq; [keeps_event I_E I_event|]. keeps_frame I_frame.
  - destruct (test b); [|apply keeps_ret].
    keeps_seq; [keeps_event I_E I_event|]. apply keeps_ret.
Qed.

Lemma stage_opening (k : M unit) b l :
  (forall b l, keeps I E k b l) ->
  keeps I E
    (_create_build_dirs ;;
     b <- self ;;
     when (negb (ran_tgz b)) (_ <- tgz w ;; ret tt) ;;
     when (test b) (_setup_test_specfile w) ;;
     k) b l.
Proof.
  intros Hk.
  keeps_seq; [apply stage_create_build_dirs|].
  keeps_read.
  keeps_seq.
  { apply keeps_when. intros _.
    keeps_seq; [apply stage_tgz | apply keeps_ret]. }
  keeps_seq; [apply keeps_when; intros _; apply stage_setup_test_specfile|].
  apply Hk.
Qed.

Lemma stage_srpm dist_arg b l : keeps I E (_srpm w dist_arg) b l.
Proof.
  unfold _srpm. apply stage_opening. clear b l. intros b l.
  keeps_read.
  keeps_seq; [keeps_event I_E I_event|].
  keeps_seq; [apply keeps_lift, I_E|].
  match goal with |- keeps _ _ (match ?x with _ => _ end) _ _ => destruct x end;
    [apply keeps_fatal, I_E|].
  keeps_seq; keeps_frame I_frame.
Qed.

Lemma stage_rpm b l : keeps I E (_rpm w) b l.
Proof.
  unfold _rpm. apply stage_opening. clear b l. intros b l.
  keeps_read.
  keeps_seq; [keeps_event I_E I_event|].
  keeps_seq; [apply keeps_lift, I_E|].
  keeps_seq; [keeps_frame I_frame|].
  keeps_seq; [keeps_frame I_frame|].
  destruct (auto_install b); [|apply keeps_ret].
  match goal with |- keeps _ _ (if ?c then _ else _) _ _ => destruct c end;
    [|apply keeps_ret].
  keeps_seq; [keeps_event I_E I_event|apply keeps_ret].
Qed.

Lemma stage_koji_tag_body koji_opts tag b l :
  keeps I E (koji_tag_body w koji_opts tag) b l.
Proof.
  assert (Hgo : forall d b l,
            keeps I E (koji_build_and_submit w koji_opts tag d) b l).
  { intros d b0 l0. unfold koji_build_and_submit.
    keeps_seq; [apply stage_srpm|apply I_submit]. }
  unfold koji_tag_body. keeps_read.
  match goal with |- keeps _ _ (if ?c then _ else _) _ _ => destruct c end;
    [apply keeps_ret|].
  keeps_seq; [apply keeps_lift, I_E|].
  destruct (has_option (config b) tag "whitelist").
  - destruct (negb (is_whitelisted b tag)); [apply keeps_ret|apply Hgo].
  - destruct (is_blacklisted b tag); [apply keeps_ret|apply Hgo].
Qed.

Lemma stage_koji_release b l : keeps I E (_koji_release w) b l.
Proof.
  unfold _koji_release. keeps_read.
  keeps_seq; [apply keeps_lift, I_E|].
  apply keeps_for_each. intros. apply stage_koji_tag_body.
Qed.

End KeepsStages.

(** ** A dry run submits nothing *)

Lemma count_snoc_false p l e : p e = false -> count p (l ++ [e]) = count p l.
Proof. intros H. rewrite count_snoc, H. lia. Qed.

Lemma stage_event_not_submit e : stage_event e = true -> is_submit_cmd e = false.
Proof. destruct e as [[] ?| | | |]; simpl; congruence. Qed.

Lemma stage_event_not_cleanup e : stage_event e = true -> is_cleanup_cmd e = false.
Proof. destruct e as [[] ?| | | |]; simpl; congruence. Qed.

Lemma dry_frame n b b' l : frame_keep b b' -> dry n b l -> dry n b' l.
Proof.
  intros (Hf & _) [Hd Hc]. split; [|exact Hc].
  unfold dry_run in *. now rewrite Hf.
Qed.

Lemma dry_event n b l e : stage_event e = true -> dry n b l -> dry n b (l ++ [e]).
Proof.
  intros He [Hd Hc]. split; [exact Hd|].
  rewrite count_snoc_false; auto using stage_event_not_submit.
Qed.

Lemma dry_submit w n executable koji_opts tag b l :
  keeps (dry n) (dry n) (_submit_build w executable koji_opts tag) b l.
Proof.
  intros [Hd Hc]. unfold _submit_build. rewrite bind_run. cbn [self].
  rewrite Hd. unfold print_dry_run_warning.
  split; [exact Hd|]. now rewrite count_snoc_false.
Qed.

Lemma dry_koji_release w n b l : keeps (dry n) (dry n) (_koji_release w) b l.
Proof.
  apply (stage_koji_release w (dry n) (dry n) (fun _ _ H => H)
           (dry_frame n) (dry_event n) (dry_submit w n)).
Qed.

Lemma keeps_run {A} I (m : M A) b l :
  keeps I I m b l -> I b l -> I (m b l).1.2 (m b l).2.
Proof.
  unfold keeps. intros H HI. specialize (H HI).
  now destruct (m b l) as [[[a|e] b1] l1].
Qed.

(** With [dry_run] set, a Koji release issues no submission command,
    whether it returns or exits, whatever the tags and the outside are:
    the log holds as many of them afterwards as before. *)
Theorem dry_run_never_submits w (b : builder) l :
  dry_run b = true ->
  count is_submit_cmd (_koji_release w b l).2 = count is_submit_cmd l.
Proof.
  intros Hd.
  assert (HI : dry (count is_submit_cmd l) b l) by now split.
  exact (proj2 (keeps_run _ _ _ _ (dry_koji_release w _ b l) HI)).
Qed.

Lemma dry_run_never_submits_witness :
  let o := options_dry_run true false false false false true in
  let b0 :=
    builder_example Builder "pkg" o
      (koji_config [("dist-f12", tag_section ".fc12" [])]) in
  dry_run b0 = true /\
  count is_submit_cmd (_koji_release quiet_world b0 []).2 = 0 /\
  count is_dry_run_warning (_koji_release quiet_world b0 []).2 = 1.
Proof.
  intros o b0.
  assert (H : dry_run b0 = true) by reflexivity.
  split; [exact H|]. split.
  - exact (dry_run_never_submits quiet_world b0 [] H).
  - vm_compute. reflexivity.
Defined.

(** ** Who removes the workspace *)

Lemma not_cleaned_frame a0 v n b b' l :
  frame_keep b b' -> not_cleaned a0 v n b l -> not_cleaned a0 v n b' l.
Proof.
  intros (Hf & Hn & _) (H1 & H2 & H3). repeat split; congruence.
Qed.

Lemma not_cleaned_event a0 v n b l e :
  stage_event e = true -> not_cleaned a0 v n b l -> not_cleaned a0 v n b (l ++ [e]).
Proof.
  intros He (H1 & H2 & H3). repeat split; auto.
  rewrite count_snoc_false; auto using stage_event_not_cleanup.
Qed.

Lemma not_cleaned_submit w a0 v n executable koji_opts tag b l :
  keeps (not_cleaned a0 v n) (not_cleaned a0 v n)
    (_submit_build w executable koji_opts tag) b l.
Proof.
  intros (H1 & H2 & H3). unfold _submit_build. rewrite bind_run. cbn [self].
  destruct (dry_run b).
  - unfold print_dry_run_warning. repeat split; auto.
    now rewrite count_snoc_false.
  - rewrite bind_run. unfold shell.
    destruct (run_command w _ _); cbn [ret]; repeat split; auto;
      now rewrite count_snoc_false.
Qed.

Lemma not_cleaned_leaves {A} (m : M A) (b : builder) l :
  (forall a0 v n, keeps (not_cleaned a0 v n) (not_cleaned a0 v n) m b l) ->
  leaves_workspace m b l.
Proof.
  intros H.
  specialize (H (fixed b) (no_cleanup b) (count is_cleanup_cmd l)).
  apply (keeps_run (not_cleaned (fixed b) (no_cleanup b) (count is_cleanup_cmd l)))
    in H; [|now repeat split].
  destruct H as (_ & H2 & H3). now split.
Qed.

(** None of [tgz], [_srpm], [_rpm] and [_koji_release] removes the
    workspace or touches [no_cleanup], whether it returns or exits: the
    removal is left to [cleanup].  [cleanup] does nothing when [no_cleanup]
    is set; otherwise it removes the rpmbuild directory, ignoring the
    status of that command, then the CVS working directory, and exits when
    this second command fails. *)
Theorem build_methods_never_clean_up w dist_arg (b : builder) l :
  leaves_workspace (tgz w) b l /\
  leaves_workspace (_srpm w dist_arg) b l /\
  leaves_workspace (_rpm w) b l /\
  leaves_workspace (_koji_release w) b l /\
  (no_cleanup b = true -> cleanup w b l = (Ok tt, b, l)) /\
  (no_cleanup b = false ->
   let rm_build := Shell In_cleanup ("rm -rf " +:+ rpmbuild_dir b) in
   let rm_cvs := "rm -rf " +:+ cvs_package_workdir b in
   cleanup w b l
   = (match run_command w (l ++ [rm_build]) rm_cvs with
      | Some _ => Ok tt
      | None => Err (CommandFailed rm_cvs)
      end, b, l ++ [rm_build; Shell In_cleanup rm_cvs])).
Proof.
  split; [|split; [|split; [|split; [|split]]]].
  - apply not_cleaned_leaves. intros a0 v n.
    apply (stage_tgz w _ _ (fun _ _ H => H)
             (not_cleaned_frame a0 v n) (not_cleaned_event a0 v n)).
  - apply not_cleaned_leaves. intros a0 v n.
    apply (stage_srpm w _ _ (fun _ _ H => H)
             (not_cleaned_frame a0 v n) (not_cleaned_event a0 v n)).
  - apply not_cleaned_leaves. intros a0 v n.
    apply (stage_rpm w _ _ (fun _ _ H => H)
             (not_cleaned_frame a0 v n) (not_cleaned_event a0 v n)).
  - apply not_cleaned_leaves. intros a0 v n.
    apply (stage_koji_release w _ _ (fun _ _ H => H)
             (not_cleaned_frame a0 v n) (not_cleaned_event a0 v n)
             (not_cleaned_submit w a0 v n)).
  - intros Hv. unfold cleanup. rewrite bind_run. cbn [self]. now rewrite Hv.
  - intros Hv. cbv zeta. unfold cleanup. rewrite bind_run. cbn [self].
    rewrite Hv. cbn [negb]. rewrite bind_run. unfold getoutput.
    rewrite bind_run. unfold shell.
    destruct (run_command w _ _); cbn [ret]; now rewrite <- app_assoc.
Qed.

Lemma build_methods_never_clean_up_witness :
  let o := options_dry_run false false false true false false in
  let b0 := builder_example Builder "pkg" o ∅ in
  let out := _srpm failing_world None b0 [] in
  is_ok out.1.1 = false /\
  out.2 <> [] /\
  count is_cleanup_cmd out.2 = 0 /\
  no_cleanup b0 = false /\
  (cleanup quiet_world out.1.2 out.2).2
  = out.2 ++ [Shell In_cleanup ("rm -rf " +:+ rpmbuild_dir b0);
              Shell In_cleanup ("rm -rf " +:+ cvs_package_workdir b0)].
Proof.
  intros o b0 out.
  destruct (build_methods_never_clean_up failing_world None b0 [])
    as (_ & [H1 H2] & _).
  assert (Hv : no_cleanup out.1.2 = false) by exact (eq_trans H2 eq_refl).
  destruct (build_methods_never_clean_up quiet_world None out.1.2 out.2)
    as (_ & _ & _ & _ & _ & Hc).
  split; [vm_compute; reflexivity|]. split; [vm_compute; discriminate|].
  split; [exact H1|]. split; [reflexivity|].
  rewrite (Hc Hv). reflexivity.
Defined.

(** ** The Koji release loop *)

Lemma koji_builds_eligible (b : attrs) tag :
  koji_builds b tag = true <->
  (only_tags b = [] \/ tag ∈ only_tags b) /\ eligible_spec b tag.
Proof.
  unfold koji_builds. rewrite andb_true_iff, orb_true_iff.
  rewrite bool_decide_eq_true. unfold Py.mem. rewrite bool_decide_eq_true.
  apply and_iff_compat_l.
  rewrite has_whitelist_allow_list, is_whitelisted_allow_list,
    is_blacklisted_deny_list.
  unfold eligible_spec.
  destruct (allow_list b tag) as [allowed|].
  - rewrite bool_decide_eq_true_2 by eauto. apply bool_decide_eq_true.
  - rewrite bool_decide_eq_false_2 by (now intros [? ?]).
    destruct (deny_list b tag) as [denied|].
    + rewrite negb_true_iff. apply bool_decide_eq_false.
    + simpl. tauto.
Qed.

Lemma koji_tag_body_cases w koji_opts tag (b : builder) l :
  koji_tag_body w koji_opts tag b l
  = if negb (bool_decide (only_tags b = []))
       && negb (Py.mem tag (only_tags b))
    then (Ok tt, b, l)
    else match config_get (config b) tag "disttag" with
         | Err e => (Err e, b, l)
         | Ok d =>
             if koji_builds b tag
             then koji_build_and_submit w koji_opts tag d b l
             else (Ok tt, b, l)
         end.
Proof.
  unfold koji_tag_body, koji_builds. rewrite bind_run. cbn [self].
  destruct (bool_decide (only_tags b = [])); cbn [negb andb orb].
  - rewrite bind_run.
    destruct (config_get (config b) tag "disttag"); [|reflexivity].
    cbn [lift ret].
    destruct (has_option (config b) tag "whitelist").
    + now destruct (is_whitelisted b tag).
    + now destruct (is_blacklisted b tag).
  - destruct (Py.mem tag (only_tags b)); cbn [negb andb orb]; [|reflexivity].
    rewrite bind_run.
    destruct (config_get (config b) tag "disttag"); [|reflexivity].
    cbn [lift ret].
    destruct (has_option (config b) tag "whitelist").
    + now destruct (is_whitelisted b tag).
    + now destruct (is_blacklisted b tag).
Qed.

Lemma stage_event_not_warning e :
  stage_event e = true -> is_dry_run_warning e = false.
Proof. destruct e as [[] ?| | | |]; simpl; congruence. Qed.

Lemma submitted_srpm w a0 n m d b l :
  keeps (submitted a0 n m) (submitted a0 n m) (_srpm w d) b l.
Proof.
  apply (stage_srpm w _ _ (fun _ _ H => H)).
  - intros b0 b1 l0 (Hf & _) (H1 & H2 & H3). repeat split; congruence.
  - intros b0 l0 e He (H1 & H2 & H3). repeat split; auto.
    + rewrite count_snoc_false; auto using stage_event_not_submit.
    + rewrite count_snoc_false; auto using stage_event_not_warning.
Qed.

(** What one turn of the loop adds when it returns. *)
Lemma koji_tag_body_counts w koji_opts tag (b : builder) l b' l' :
  koji_tag_body w koji_opts tag b l = (Ok tt, b', l') ->
  fixed b' = fixed b /\
  count is_submit_cmd l'
  = count is_submit_cmd l
    + (if koji_builds b tag && negb (dry_run b) then 1 else 0) /\
  count is_dry_run_warning l'
  = count is_dry_run_warning l
    + (if koji_builds b tag && dry_run b then 1 else 0).
Proof.
  rewrite koji_tag_body_cases.
  assert (Hskip : koji_builds b tag = false ->
                  (Ok tt, b, l) = (Ok tt, b', l') ->
                  fixed b' = fixed b /\
                  count is_submit_cmd l'
                  = count is_submit_cmd l
                    + (if koji_builds b tag && negb (dry_run b) then 1 else 0) /\
                  count is_dry_run_warning l'
                  = count is_dry_run_warning l
                    + (if koji_builds b tag && dry_run b then 1 else 0)).
  { intros -> H. injection H as <- <-. cbn [andb]. repeat split; lia. }
  destruct (negb _ && negb _) eqn:Hfilter.
  { apply Hskip. unfold koji_builds.
    apply andb_true_iff in Hfilter as [H1 H2].
    apply negb_true_iff in H1, H2. now rewrite H1, H2. }
  destruct (config_get (config b) tag "disttag") as [d|e]; [|discriminate].
  destruct (koji_builds b tag) eqn:Hb; [|now apply Hskip].
  clear Hskip. unfold koji_build_and_submit. intros H.
  apply bind_ok in H as ([] & b1 & l1 & Hs & H).
  assert (G : submitted (fixed b) (count is_submit_cmd l)
                (count is_dry_run_warning l) b1 l1).
  { refine (keeps_ok _ (submitted (fixed b) (count is_submit_cmd l)
                          (count is_dry_run_warning l)) _ _ _ _ _ _
              (submitted_srpm w _ _ _ (Some d) b l) _ Hs).
    now repeat split. }
  destruct G as (G1 & G2 & G3).
  apply submit_build_ok in H as [-> ->].
  split; [exact G1|]. rewrite !count_snoc, G2, G3.
  unfold submission. unfold dry_run at 1 2. rewrite G1. fold (dry_run b).
  cbn [andb]. now destruct (dry_run b).
Qed.

Lemma koji_loop_counts w koji_opts tags :
  forall (b : builder) l b' l',
    for_each tags (koji_tag_body w koji_opts) b l = (Ok tt, b', l') ->
    let built := List.filter (koji_builds b) tags in
    fixed b' = fixed b /\
    count is_submit_cmd l'
    = count is_submit_cmd l + (if dry_run b then 0 else length built) /\
    count is_dry_run_warning l'
    = count is_dry_run_warning l + (if dry_run b then length built else 0).
Proof.
  induction tags as [|tag tags IH]; intros b l b' l' H; cbn [for_each] in H.
  - injection H as <- <-. cbn. destruct (dry_run b); repeat split; lia.
  - apply bind_ok in H as ([] & b1 & l1 & H1 & H).
    apply koji_tag_body_counts in H1 as (F1 & S1 & D1).
    apply IH in H as (F2 & S2 & D2). cbv zeta in *.
    split; [congruence|].
    rewrite S2, D2, S1, D1. cbn [List.filter].
    unfold dry_run at 1 3. rewrite F1. fold (dry_run b).
    replace (List.filter (koji_builds b1) tags)
      with (List.filter (koji_builds b) tags) by now rewrite F1.
    destruct (koji_builds b tag), (dry_run b); cbn [andb negb length]; lia.
Qed.

(** A Koji release that returns has made one submission for each tag of
    [autobuild_tags], repeated ones included, that the [only_tags] option
    lets through and whose lists make the project eligible, and none
    besides: commands in a real run, warnings in a dry run. *)
Theorem koji_release_submits_per_tag w (b : builder) l b' l' :
  _koji_release w b l = (Ok tt, b', l') ->
  exists autobuild_tags,
    config_get (config b) "koji" "autobuild_tags" = Ok autobuild_tags /\
    let built := List.filter (koji_builds b) (words_of autobuild_tags) in
    (forall tag,
        tag ∈ built <->
        (tag ∈ words_of autobuild_tags) /\
        (only_tags b = [] \/ tag ∈ only_tags b) /\ eligible_spec b tag) /\
    count is_submit_cmd l'
    = count is_submit_cmd l + (if dry_run b then 0 else length built) /\
    count is_dry_run_warning l'
    = count is_dry_run_warning l + (if dry_run b then length built else 0).
Proof.
  unfold _koji_release. rewrite bind_run. cbn [self]. rewrite bind_run.
  destruct (config_get (config b) "koji" "autobuild_tags") as [v|e];
    [|discriminate].
  cbn [lift ret]. intros H. exists v. split; [reflexivity|].
  apply koji_loop_counts in H as (_ & S & D). cbv zeta. split; [|now split].
  intros tag. rewrite list_elem_of_In, filter_In, <- list_elem_of_In.
  now rewrite koji_builds_eligible.
Qed.

Lemma koji_release_submits_per_tag_witness :
  let o := options_example None false false false false true in
  let b0 :=
    builder_example Builder "pkg" o
      (koji_config [("dist-f12", tag_section ".fc12" []);
                    ("dist-el5", tag_section ".el5" [("blacklist", "pkg")]);
                    ("dist-f13", tag_section ".fc12" [("whitelist", "pkg")])]) in
  let out := _koji_release quiet_world b0 [] in
  out = (Ok tt, out.1.2, out.2) /\
  count is_submit_cmd out.2 = 2 /\ count is_dry_run_warning out.2 = 0.
Proof.
  intros o b0 out.
  assert (H : out = (Ok tt, out.1.2, out.2)) by (vm_compute; reflexivity).
  split; [exact H|].
  destruct (koji_release_submits_per_tag quiet_world b0 [] _ _ H)
    as (tags & Ht & _ & Hs & Hd).
  assert (Hv : tags = "dist-f12 dist-el5 dist-f13")
    by (vm_compute in Ht; congruence).
  rewrite Hs, Hd, Hv. split; vm_compute; reflexivity.
Defined.

(** ** Tags without a [disttag] *)

Lemma koji_loop_missing_disttag w koji_opts tag e tags :
  forall (b : builder) l,
    tag ∈ tags ->
    only_tags b = [] \/ tag ∈ only_tags b ->
    config_get (config b) tag "disttag" = Err e ->
    is_ok (for_each tags (koji_tag_body w koji_opts) b l).1.1 = false.
Proof.
  induction tags as [|t tags IH]; intros b l Hin Hf Hd.
  - now apply elem_of_nil in Hin.
  - cbn [for_each]. rewrite bind_run.
    destruct (koji_tag_body w koji_opts t b l) as [[[[]|e1] b1] l1] eqn:Hb;
      [|reflexivity].
    apply elem_of_cons in Hin as [<-|Hin].
    + rewrite koji_tag_body_cases, Hd in Hb.
      replace (negb (bool_decide (only_tags b = []))
               && negb (Py.mem tag (only_tags b))) with false in Hb;
        [discriminate|].
      unfold Py.mem. destruct Hf as [H|H].
      * now rewrite bool_decide_eq_true_2.
      * rewrite (bool_decide_eq_true_2 _ H). now rewrite andb_false_r.
    + apply koji_tag_body_counts in Hb as (F & _).
      apply IH; auto.
      * unfold only_tags in *. now rewrite F.
      * unfold config in *. now rewrite F.
Qed.

(** A Koji release never returns when one of the tags it is asked for
    has no [disttag], whatever the lists of that tag say about the
    project; when that tag comes first, it exits with the configuration
    error before doing anything. *)
Theorem koji_release_missing_disttag w (b : builder) l autobuild_tags tag e :
  config_get (config b) "koji" "autobuild_tags" = Ok autobuild_tags ->
  only_tags b = [] \/ tag ∈ only_tags b ->
  config_get (config b) tag "disttag" = Err e ->
  (tag ∈ words_of autobuild_tags ->
   is_ok (_koji_release w b l).1.1 = false) /\
  (head (words_of autobuild_tags) = Some tag ->
   _koji_release w b l = (Err e, b, l)).
Proof.
  intros Ht Hf Hd.
  unfold _koji_release. rewrite bind_run. cbn [self]. rewrite bind_run, Ht.
  cbn [lift ret]. split.
  - intros Hin. now apply (koji_loop_missing_disttag w _ tag e).
  - destruct (words_of autobuild_tags) as [|t ts]; [discriminate|].
    intros [= ->]. cbn [for_each]. rewrite bind_run.
    rewrite koji_tag_body_cases, Hd.
    replace (negb (bool_decide (only_tags b = []))
             && negb (Py.mem tag (only_tags b))) with false; [reflexivity|].
    unfold Py.mem. destruct Hf as [H|H].
    + now rewrite bool_decide_eq_true_2.
    + rewrite (bool_decide_eq_true_2 _ H). now rewrite andb_false_r.
Qed.

Lemma koji_release_missing_disttag_witness :
  let o := options_example None false false false false true in
  let b0 := builder_example Builder "pkg" o koji_config_no_disttag in
  is_blacklisted b0 "dist-el5" = true /\
  is_ok (_koji_release quiet_world b0 []).1.1 = false.
Proof.
  intros o b0.
  split; [vm_compute; reflexivity|].
  refine (proj1 (koji_release_missing_disttag quiet_world b0 []
                   "dist-f12 dist-el5" "dist-el5"
                   (NoOptionError "dist-el5" "disttag") _ _ _) _).
  - vm_compute. reflexivity.
  - left. reflexivity.
  - vm_compute. reflexivity.
  - vm_compute. set_solver.
Defined.

(** ** Listing the tags *)

Lemma list_tags_fold debug (b : attrs) tags :
  forall printed,
    fold_left
      (fun printed koji_tag =>
         match list_tags_line debug b koji_tag with
         | Some line => printed ++ [line]
         | None => printed
         end) tags printed
    = printed ++ omap (list_tags_line debug b) tags.
Proof.
  induction tags as [|t tags IH]; intros printed; simpl.
  - now rewrite app_nil_r.
  - rewrite IH. destruct (list_tags_line debug b t); simpl.
    + now rewrite <- app_assoc.
    + reflexivity.
Qed.

Lemma list_tags_printed debug (b : attrs) v :
  config_get (config b) "koji" "autobuild_tags" = Ok v ->
  _list_tags debug b = Ok (omap (list_tags_line debug b) (words_of v)).
Proof. intros H. unfold _list_tags. now rewrite H, list_tags_fold. Qed.

(** Without [DEBUG], [_list_tags] prints, in their order, the tags of
    [autobuild_tags] for which the project is whitelisted or is not
    blacklisted.  Every tag a release builds for is among them, but so is a
    tag whose whitelist lacks the project, as long as no blacklist names
    it, and for that tag a release builds nothing. *)
Theorem list_tags_and_release (b : attrs) autobuild_tags :
  config_get (config b) "koji" "autobuild_tags" = Ok autobuild_tags ->
  exists printed,
    _list_tags false b = Ok printed /\
    printed
    = List.filter
        (fun tag => is_whitelisted b tag || negb (is_blacklisted b tag))
        (words_of autobuild_tags) /\
    (forall tag,
        tag ∈ words_of autobuild_tags -> koji_builds b tag = true ->
        tag ∈ printed) /\
    (forall tag,
        tag ∈ words_of autobuild_tags ->
        has_option (config b) tag "whitelist" = true ->
        is_whitelisted b tag = false -> is_blacklisted b tag = false ->
        tag ∈ printed /\ koji_builds b tag = false).
Proof.
  intros Ht. eexists. split; [apply (list_tags_printed false b _ Ht)|].
  assert (Heq : omap (list_tags_line false b) (words_of autobuild_tags)
                = List.filter
                    (fun tag => is_whitelisted b tag || negb (is_blacklisted b tag))
                    (words_of autobuild_tags)).
  { induction (words_of autobuild_tags) as [|t ts IH]; [reflexivity|].
    simpl. rewrite <- IH. unfold list_tags_line.
    destruct (is_whitelisted b t); [reflexivity|].
    now destruct (is_blacklisted b t). }
  rewrite Heq. split; [reflexivity|]. split.
  - intros tag Hin Hb. rewrite list_elem_of_In, filter_In, <- list_elem_of_In.
    split; [exact Hin|]. unfold koji_builds in Hb.
    apply andb_true_iff in Hb as [_ Hb].
    destruct (has_option (config b) tag "whitelist").
    + now rewrite Hb.
    + rewrite Hb. apply orb_true_r.
  - intros tag Hin Hw Hnw Hnb. split.
    + rewrite list_elem_of_In, filter_In, <- list_elem_of_In.
      split; [exact Hin|]. now rewrite Hnw, Hnb.
    + unfold koji_builds. rewrite Hw, Hnw. apply andb_false_r.
Qed.

Lemma list_tags_and_release_witness :
  let o := options_example None false false false false true in
  let b0 :=
    builder_example Builder "pkg" o
      (koji_config [("dist-f12", tag_section ".fc12" [("whitelist", "other")]);
                    ("dist-el5", tag_section ".el5" [("blacklist", "pkg")])]) in
  _list_tags false b0 = Ok ["dist-f12"] /\
  koji_builds b0 "dist-f12" = false.
Proof.
  intros o b0.
  assert (H0 : config_get (config b0) "koji" "autobuild_tags"
               = Ok "dist-f12 dist-el5") by (vm_compute; reflexivity).
  destruct (list_tags_and_release b0 "dist-f12 dist-el5" H0)
    as (p & H1 & H2 & H3 & H4).
  split; [vm_compute; reflexivity|].
  refine (proj2 (H4 "dist-f12" _ _ _ _)).
  - vm_compute. left.
  - vm_compute. reflexivity.
  - vm_compute. reflexivity.
  - vm_compute. reflexivity.
Defined.

(** [_can_build_in_koji] tells exactly when the tags can be listed, and
    a Koji release started where it says no exits with the configuration
    error before doing anything. *)
Theorem can_build_in_koji_guards w (b : builder) l debug :
  is_ok (_list_tags debug b) = _can_build_in_koji b /\
  (_can_build_in_koji b = false ->
   exists e,
     (e = NoSectionError "koji" \/ e = NoOptionError "koji" "autobuild_tags") /\
     _koji_release w b l = (Err e, b, l)).
Proof.
  unfold _can_build_in_koji, _list_tags, _koji_release, has_section,
    has_option, config_get.
  rewrite bind_run. cbn [self]. rewrite bind_run.
  unfold config_get.
  destruct (config b !! "koji") as [opts|].
  - rewrite bool_decide_eq_true_2 by eauto. cbn [negb].
    destruct (opts !! "autobuild_tags") as [v|].
    + rewrite bool_decide_eq_true_2 by eauto. now split.
    + rewrite bool_decide_eq_false_2 by (now intros [? ?]).
      split; [reflexivity|]. intros _. eexists. split; [right|]; reflexivity.
  - rewrite bool_decide_eq_false_2 by (now intros [? ?]).
    split; [reflexivity|]. intros _. eexists. split; [left|]; reflexivity.
Qed.

Lemma can_build_in_koji_guards_witness :
  let o := options_example None false false false false true in
  let b0 := builder_example Builder "pkg" o ∅ in
  _can_build_in_koji b0 = false /\
  _koji_release quiet_world b0 [] = (Err (NoSectionError "koji"), b0, []).
Proof.
  intros o b0.
  assert (H : _can_build_in_koji b0 = false) by (vm_compute; reflexivity).
  split; [exact H|].
  destruct (proj2 (can_build_in_koji_guards quiet_world b0 [] false) H)
    as (e & [->| ->] & He).
  - exact He.
  - exfalso. vm_compute in He. discriminate.
Defined.

(** ** What [tgz] leaves behind *)





(** ** Installing what was built *)

Lemma do_install_filter dont_install files_written :
  do_install_of dont_install files_written
  = List.filter
      (fun to_inst =>
         negb (existsb (fun skip => Py.contains to_inst skip) dont_install))
      (tail files_written).
Proof.
  unfold do_install_of.
  assert (H : forall fs acc,
             fold_left
               (fun do_install to_inst =>
                  if existsb (fun skip => Py.contains to_inst skip) dont_install
                  then do_install else do_install ++ [to_inst]) fs acc
             = acc ++ List.filter
                        (fun to_inst =>
                           negb (existsb (fun skip => Py.contains to_inst skip)
                                   dont_install)) fs).
  { induction fs as [|f fs IH]; intros acc; simpl.
    - now rewrite app_nil_r.
    - rewrite IH. destruct (existsb _ dont_install); simpl.
      + reflexivity.
      + now rewrite <- app_assoc. }
  apply H.
Qed.

Lemma contains_empty s : Py.contains s "" = true.
Proof. destruct s; reflexivity. Qed.

Lemma empty_word_skips_all dont_install (fs : list string) :
  In "" dont_install ->
  List.filter
    (fun to_inst =>
       negb (existsb (fun skip => Py.contains to_inst skip) dont_install)) fs
  = [].
Proof.
  intros Hin. induction fs as [|f fs IH]; [reflexivity|].
  simpl.
  replace (existsb (fun skip => Py.contains f skip) dont_install) with true;
    [exact IH|].
  symmetry. apply existsb_exists. exists "". split; [exact Hin|].
  apply contains_empty.
Qed.

(** With [auto_install], a full build that returns has ended with the
    install command, right after rpmbuild: it names every file rpmbuild
    wrote but the first that contains none of the [NO_AUTO_INSTALL] words,
    so none at all when one of those words is empty.  The source package
    location is the first file written. *)
Theorem rpm_auto_install w (b : builder) l b' l' :
  auto_install b = true ->
  _rpm w b l = (Ok tt, b', l') ->
  exists l1 output,
    let cmd :=
      rpm_cmd b'
        (if truthy (dist b) then define_dist_of (Py.str_of_opt (dist b))
         else "") in
    let files := wrote_paths output in
    let dont_install :=
      match user_config b !! "NO_AUTO_INSTALL" with
      | Some v => Py.split " " v
      | None => []
      end in
    let installed :=
      List.filter
        (fun to_inst =>
           negb (existsb (fun skip => Py.contains to_inst skip) dont_install))
        (tail files) in
    l `prefix_of` l1 /\
    run_command w l1 cmd = Some output /\
    l' = l1 ++ [Shell In_rpm cmd;
                Shell In_rpm ("sudo rpm -Uvh --force " +:+ Py.join " " installed)] /\
    srpm_location b' = head files /\
    (In "" dont_install -> installed = []).
Proof.
  intros Hauto H. unfold _rpm in H.
  apply opening_ok in H as (b4 & l4 & Gf & Gl & H).
  apply bind_ok in H as (b5 & ? & ? & Hs & H). injection Hs as <- <- <-.
  apply bind_ok in H as (output & b6 & l6 & Hsh & H).
  unfold shell in Hsh.
  destruct (run_command w l4 _) as [out|] eqn:Hrun; [|discriminate].
  injection Hsh as <- <- <-.
  apply bind_ok in H as (files & b7 & l7 & Hl & H).
  destruct (rpm_files_written out) as [fw|e] eqn:Hfw; [|discriminate].
  injection Hl as <- <- <-.
  apply rpm_files_written_ok in Hfw as [-> Hlen].
  apply bind_ok in H as ([] & b8 & l8 & H8 & H). injection H8 as <- <-.
  apply bind_ok in H as ([] & b9 & l9 & H9 & H). injection H9 as <- <-.
  assert (Ha : auto_install b4 = true).
  { unfold auto_install in *. now rewrite Gf. }
  rewrite Ha in H.
  assert (Hu : user_config b4 = user_config b).
  { unfold user_config. now rewrite Gf. }
  rewrite Hu in H.
  destruct (0 <? length (tail (wrote_paths out)))%nat eqn:Htail.
  2:{ apply Nat.ltb_ge in Htail.
      destruct (wrote_paths out) as [|? [|? ?]]; simpl in *; lia. }
  apply bind_ok in H as (out2 & b10 & l10 & Hsh & H).
  unfold shell in Hsh.
  destruct (run_command w (l4 ++ _) _); [|discriminate].
  injection Hsh as <- <- <-. cbv [ret] in H. injection H as <- <-.
  assert (Hd : dist b4 = dist b) by (unfold dist; now rewrite Gf).
  rewrite Hd in Hrun. rewrite ?Hd.
  exists l4, out. cbv zeta.
  split; [exact Gl|]. split; [exact Hrun|].
  split; [rewrite <- app_assoc, do_install_filter; reflexivity|].
  split; [reflexivity|].
  apply empty_word_skips_all.
Qed.

Lemma rpm_auto_install_witness :
  let o :=
    mkOptions None false false true None false [] false true
      false false true false in
  let b0 :=
    new_builder Builder "pkg" "1.0-1" "pkg-1.0-1" "/tmp/tito" ∅ ∅
      {["NO_AUTO_INSTALL" := ""]} o git_example in
  let out := _rpm quiet_world b0 [] in
  auto_install b0 = true /\
  out.1.1 = Ok tt /\
  last out.2 = Some (Shell In_rpm "sudo rpm -Uvh --force ").
Proof.
  intros o b0 out.
  assert (H0 : auto_install b0 = true) by reflexivity.
  assert (H : out = (Ok tt, out.1.2, out.2)) by (vm_compute; reflexivity).
  split; [exact H0|]. split; [now rewrite H|].
  destruct (rpm_auto_install quiet_world b0 [] _ _ H0 H)
    as (l1 & output & _ & _ & Hl & _ & Hempty).
  rewrite Hempty in Hl by (vm_compute; left; reflexivity).
  rewrite Hl.
  change (l1 ++ [?c; ?e]) with (l1 ++ [c] ++ [e]).
  rewrite app_assoc. apply last_snoc.
Defined.

(** ** The configuration a builder reads *)

Lemma config_get_lookup (c : gmap string (gmap string string)) section option v :
  config_get c section option = Ok v <->
  c !! section ≫= (.!! option) = Some v.
Proof.
  unfold config_get. destruct (c !! section) as [opts|]; simpl.
  - destruct (opts !! option); split; congruence.
  - split; discriminate.
Qed.

Lemma config_set_lookup (c : gmap string (gmap string string)) s o v s' o' :
  config_set c s o v !! s' ≫= (.!! o')
  = if decide (s' = s /\ o' = o) then Some v else c !! s' ≫= (.!! o').
Proof.
  unfold config_set.
  destruct (decide (s' = s)) as [->|Hs].
  - rewrite lookup_insert_eq. simpl.
    destruct (decide (o' = o)) as [->|Ho].
    + rewrite lookup_insert_eq. now rewrite decide_True.
    + rewrite lookup_insert_ne by congruence.
      rewrite decide_False by (intros [_ ?]; congruence).
      now destruct (c !! s).
  - rewrite lookup_insert_ne by congruence.
    now rewrite decide_False by (intros [? _]; congruence).
Qed.

Lemma config_set_section (c : gmap string (gmap string string)) s o v s' :
  is_Some (config_set c s o v !! s') <-> s' = s \/ is_Some (c !! s').
Proof.
  unfold config_set. destruct (decide (s' = s)) as [->|Hs].
  - rewrite lookup_insert_eq. split; [now left|eauto].
  - rewrite lookup_insert_ne by congruence. split; [now right|].
    now intros [?|?].
Qed.

(** The inner loop, over the options of one section. *)
Lemma override_section_lookup s (opts : gmap string string)
    (c : gmap string (gmap string string)) :
  let r := map_fold (fun option value c => config_set c s option value) c opts in
  (forall s' o',
     r !! s' ≫= (.!! o')
     = if decide (s' = s)
       then match opts !! o' with
            | Some v => Some v
            | None => c !! s ≫= (.!! o')
            end
       else c !! s' ≫= (.!! o')) /\
  (forall s', is_Some (r !! s') <-> is_Some (c !! s') \/ (s' = s /\ opts <> ∅)).
Proof.
  cbv zeta.
  apply (map_fold_weak_ind
           (fun r (m : gmap string string) =>
              (forall s' o',
                 r !! s' ≫= (.!! o')
                 = if decide (s' = s)
                   then match m !! o' with
                        | Some v => Some v
                        | None => c !! s ≫= (.!! o')
                        end
                   else c !! s' ≫= (.!! o')) /\
              (forall s', is_Some (r !! s') <->
                          is_Some (c !! s') \/ (s' = s /\ m <> ∅)))).
  - split.
    + intros s' o'. rewrite lookup_empty.
      now destruct (decide (s' = s)) as [->|].
    + intros s'. split; [now left|]. now intros [?|[_ ?]].
  - intros o v m r Hm [IH1 IH2]. split.
    + intros s' o'. rewrite config_set_lookup, IH1.
      destruct (decide (s' = s)) as [->|Hs].
      * destruct (decide (o' = o)) as [->|Ho].
        -- rewrite decide_True by done. now rewrite lookup_insert_eq.
        -- rewrite decide_False by (intros [_ ?]; congruence).
           now rewrite lookup_insert_ne by congruence.
      * now rewrite decide_False by (intros [? _]; congruence).
    + intros s'. rewrite config_set_section, IH2. split.
      * intros [->|[?|[-> _]]]; [right|now left|right];
          (split; [reflexivity|apply insert_non_empty]).
      * intros [?|[-> _]]; [right; now left|now left].
Qed.

(** The outer loop, over the sections. *)
Lemma override_config_lookup (pkg glob : gmap string (gmap string string)) :
  (forall s o,
     override_config pkg glob !! s ≫= (.!! o)
     = match pkg !! s ≫= (.!! o) with
       | Some v => Some v
       | None => glob !! s ≫= (.!! o)
       end) /\
  (forall s,
     is_Some (override_config pkg glob !! s) <->
     is_Some (glob !! s) \/ (exists opts, pkg !! s = Some opts /\ opts <> ∅)).
Proof.
  unfold override_config.
  apply (map_fold_weak_ind
           (fun r (m : gmap string (gmap string string)) =>
              (forall s o,
                 r !! s ≫= (.!! o)
                 = match m !! s ≫= (.!! o) with
                   | Some v => Some v
                   | None => glob !! s ≫= (.!! o)
                   end) /\
              (forall s, is_Some (r !! s) <->
                         is_Some (glob !! s) \/
                         (exists opts, m !! s = Some opts /\ opts <> ∅)))).
  - split.
    + intros s o. now rewrite lookup_empty.
    + intros s. rewrite lookup_empty. split; [now left|].
      now intros [?|(? & ? & _)].
  - intros sec opts m r Hm [IH1 IH2].
    destruct (override_section_lookup sec opts r) as [L1 L2].
    cbv zeta in L1, L2. split.
    + intros s o. rewrite L1.
      destruct (decide (s = sec)) as [->|Hs].
      * rewrite lookup_insert_eq. simpl.
        destruct (opts !! o); [reflexivity|].
        rewrite IH1, Hm. reflexivity.
      * rewrite lookup_insert_ne by congruence. apply IH1.
    + intros s. rewrite L2, IH2.
      destruct (decide (s = sec)) as [->|Hs].
      * rewrite lookup_insert_eq, Hm. split.
        -- intros [[?|(? & ? & _)]|[_ Hne]]; [now left|discriminate|].
           right. now exists opts.
        -- intros [?|(o' & [= <-] & Hne)]; [left; now left|now right].
      * rewrite lookup_insert_ne by congruence. split.
        -- intros [?|[? _]]; [assumption|congruence].
        -- intros ?. now left.
Qed.

(** The loop of [__init__] that lays the package configuration over the
    global one: afterwards an option has the value of the package
    configuration when that has the option and the value of the global
    configuration otherwise, also when the package configuration has the
    section without the option; and the sections are those of the global
    configuration and those of the package configuration that hold an
    option, a package section without options adding nothing. *)
Theorem package_config_overrides c name version tag build_dir pkg glob user o git
    section option :
  let b := new_builder c name version tag build_dir pkg glob user o git in
  has_option (config b) section option
  = has_option pkg section option || has_option glob section option /\
  (forall v,
     config_get (config b) section option = Ok v <->
     config_get pkg section option = Ok v \/
     (has_option pkg section option = false /\
      config_get glob section option = Ok v)) /\
  (has_section (config b) section = true <->
   has_section glob section = true \/
   exists opts, pkg !! section = Some opts /\ opts <> ∅).
Proof.
  intros b.
  change (config b) with (override_config pkg glob).
  destruct (override_config_lookup pkg glob) as [L1 L2].
  split; [|split].
  - rewrite !has_option_lookup, L1.
    now destruct (pkg !! section ≫= (.!! option)).
  - setoid_rewrite config_get_lookup. rewrite has_option_lookup, L1.
    destruct (pkg !! section ≫= (.!! option)) as [x|]; simpl.
    + intros v. split; [now left|].
      intros [H|[H _]]; [exact H|discriminate].
    + intros v. split; [now right|].
      intros [H|[_ H]]; [discriminate|exact H].
  - unfold has_section. rewrite !bool_decide_eq_true. apply L2.
Qed.

(** ** More on the files synced *)


Lemma sync_copy_loop_sublist dest files :
  forall acc (fs fs' : filesystem) nf,
    sync_copy_loop dest files acc fs = (Ok nf, fs') ->
    exists extra, nf = acc ++ extra /\ extra `sublist_of` map Py.basename files.
Proof.
  induction files as [|f files IH]; intros acc fs fs' nf; simpl.
  - intros [= <- <-]. exists []. now rewrite app_nil_r.
  - destruct (cp f _ fs) as [fs1|]; [|discriminate].
    intros H. apply IH in H as (extra & -> & Hsub).
    destruct (path_exists fs _).
    + exists (Py.basename f :: extra). rewrite <- app_assoc.
      split; [reflexivity|]. now apply sublist_skip.
    + exists extra. split; [reflexivity|]. now apply sublist_cons.
Qed.

(** A sync that returns never reports a file as copied over; the files it
    reports as new are names of files to copy, in their order; and the
    files it reports as old are the entries the destination has after the
    copy that are not protected and not among the names copied. *)
Theorem sync_files_reports_old files dest fs new_files copied_files old_files fs' :
  _sync_files files dest fs = (Ok (new_files, copied_files, old_files), fs') ->
  copied_files = [] /\
  new_files `sublist_of` map Py.basename files /\
  forall name,
    name ∈ old_files <->
    (name ∈ listdir fs' dest) /\ (name ∉ PROTECTED_BUILD_SYS_FILES)
    /\ (name ∉ map Py.basename files).
Proof.
  intros H.
  destruct (sync_files_old_and_copied _ _ _ _ _ _ _ H) as [Hc Hold].
  split; [exact Hc|]. split; [|exact Hold].
  unfold _sync_files in H.
  destruct (fs !! dest) as [[|]|]; try discriminate.
  destruct (sync_copy_loop dest files [] fs) as [[nf|e] fs1] eqn:Hloop;
    [|discriminate].
  injection H as <- _ _ _.
  apply sync_copy_loop_sublist in Hloop as (extra & -> & Hsub). exact Hsub.
Qed.

Lemma sync_files_reports_old_witness :
  let files := ["/git/pkg/a.spec"; "/git/pkg/b.patch"] in
  let out := _sync_files files "/cvs/pkg/F-12" fs_example in
  out = (Ok (["a.spec"], [], ["c.patch"]), out.2) /\
  ("c.patch" ∈ listdir out.2 "/cvs/pkg/F-12") /\
  ("c.patch" ∉ PROTECTED_BUILD_SYS_FILES).
Proof.
  intros files out.
  assert (H : out = (Ok (["a.spec"], [], ["c.patch"]), out.2))
    by (vm_compute; reflexivity).
  split; [exact H|].
  destruct (sync_files_reports_old files "/cvs/pkg/F-12" fs_example _ _ _ _ H)
    as (_ & _ & Hold).
  assert (Hin : "c.patch" ∈ ["c.patch"]) by left.
  destruct (proj1 (Hold "c.patch") Hin) as (H1 & H2 & _).
  split; [exact H1|exact H2].
Defined.

(** ** The upstream version *)

(** When the spec file defines no [upstreamversion], the upstream version
    of a new builder is its build version up to the first dash, in a test
    build as in any other: it holds no dash, and in a test build it is not
    the display version. *)
Theorem upstream_version_without_release c name version tag build_dir pkg glob
    user o git status output :
  let b := new_builder c name version tag build_dir pkg glob user o git in
  status <> 0%N \/ output = "" ->
  _get_upstream_version b status output = List.hd "" (Py.split "-" version) /\
  Py.contains (_get_upstream_version b status output) "-" = false /\
  (opt_test o = true ->
   _get_upstream_version b status output <> display_version b).
Proof.
  intros b Hs.
  assert (H : _get_upstream_version b status output
              = List.hd "" (Py.split "-" version)).
  { unfold _get_upstream_version.
    replace ((status =? 0)%N && negb (String.eqb output "")) with false.
    - change (test b) with (opt_test o). change (build_version b) with version.
      change (display_version b)
        with (_get_display_version (opt_test o) version (get_commit_count git)
                (get_latest_commit git)).
      unfold _get_display_version. now destruct (opt_test o).
    - symmetry. destruct Hs as [Hs| ->].
      + apply N.eqb_neq in Hs. now rewrite Hs.
      + apply andb_false_r. }
  rewrite H. split; [reflexivity|]. split; [apply (split_head_no_sep "-")|].
  intros Ht Heq.
  change (display_version b)
    with (_get_display_version (opt_test o) version (get_commit_count git)
            (get_latest_commit git)) in Heq.
  rewrite Ht in Heq. unfold _get_display_version in Heq.
  pose proof (split_head_no_sep "-" version) as Hno.
  rewrite Heq, git_prefix_has_dash in Hno. discriminate.
Qed.

Lemma upstream_version_without_release_witness :
  let o := options_example None true false true false false in
  let b0 := builder_example NoTgzBuilder "pkg" o ∅ in
  _get_upstream_version b0 0 "" = "1.0" /\
  display_version b0 = "git-5.0123456".
Proof.
  intros o b0.
  assert (Hs : 0%N <> 0%N \/ "" = "") by (right; reflexivity).
  destruct (upstream_version_without_release NoTgzBuilder "pkg" "1.0-1"
              "pkg-1.0-1" "/tmp/tito" ∅ ∅ ∅ o git_example 0 "" Hs)
    as (H1 & _ & _).
  split; [exact H1|reflexivity].
Defined.
